(** * HC-SR04 ultrasonic rangefinder driver (src/main/drivers/sonar_hcsr04.c)

    A shallow embedding of the pulse-timing core of the driver: the echo
    interrupt handler [hcsr04_extiHandler], the rate-limited trigger
    [hcsr04_start_reading] and the reader [hcsr04_get_distance], followed by
    the properties of the measurement cycle.

    The firmware build is modelled ([SONAR] defined, [UNIT_TEST] not defined):
    under [UNIT_TEST] the handler and the body of [hcsr04_start_reading] are
    compiled out. *)

From Stdlib Require Import ZArith List Bool Lia.
Import ListNotations.

Local Open Scope Z_scope.

(** ** Machine integers

    The C integer types of the driver, as [Z] with the wrap-around written
    out.  [uint32_t] arithmetic is arithmetic modulo [2^32]; a value stored
    into an [int32_t] object is reduced to the signed 32-bit range (two's
    complement, as every supported compiler does). *)

Module MachineInt.

Definition u32_modulus : Z := 2 ^ 32.
Definition s32_half : Z := 2 ^ 31.

(** [uint32_t] wrap-around. *)
Definition u32 (z : Z) : Z := z mod u32_modulus.

(** Conversion to [int32_t]. *)
Definition s32 (z : Z) : Z :=
  let r := z mod u32_modulus in
  if r <? s32_half then r else r - u32_modulus.

Definition is_u32 (z : Z) : Prop := 0 <= z < u32_modulus.
Definition is_s32 (z : Z) : Prop := - s32_half <= z < s32_half.

End MachineInt.

Import MachineInt.

(** ** Constants *)

(** [#define HCSR04_MAX_RANGE_CM 400], "4m, from HC-SR04 spec sheet". *)
Definition HCSR04_MAX_RANGE_CM : Z := 400.

(** [#define HCSR04_MinimumFiringIntervalMs 60]. *)
Definition HCSR04_MinimumFiringIntervalMs : Z := 60.

(** Modelled from the spec: drivers/rangefinder.h is not among the sources.
    A distance reading is a centimetre value in [[0, MAX_RANGE_CM]] or one of
    two sentinel integer codes; the codes are the negative values the
    rangefinder interface declares for them. *)
Definition RANGEFINDER_OUT_OF_RANGE : Z := -1.
Definition RANGEFINDER_HARDWARE_FAILURE : Z := -2.

(** What a caller of the rangefinder interface can tell apart. *)
Definition is_sentinel (d : Z) : Prop :=
  d = RANGEFINDER_OUT_OF_RANGE \/ d = RANGEFINDER_HARDWARE_FAILURE.

Definition in_range_cm (d : Z) : Prop := 0 <= d <= HCSR04_MAX_RANGE_CM.

Definition is_distance_reading (d : Z) : Prop := in_range_cm d \/ is_sentinel d.

(** ** Driver state

    The file-scope and function-scope statics of the driver.

    Modelled from the spec: common/time.h, which declares [timeDelta_t],
    [timeMs_t] and [timeUs_t], is not among the sources.  The time stamps are
    wrapping tick counters and the travel time is a signed time difference
    (a delta that the wrap-around of the timer could make negative).  The
    widths are those the source shows next to them: [millis()] is stored
    into a [uint32_t] and compared with a [timeMs_t], and the quotient of the
    [timeDelta_t] is stored into an [int32_t].  So [timeDelta_t] is
    [int32_t], [timeMs_t] and [timeUs_t] are [uint32_t]. *)

Record driver : Type := mkDriver {
  (** [static volatile timeDelta_t hcsr04SonarPulseTravelTime = 0;] *)
  hcsr04SonarPulseTravelTime : Z;
  (** [static volatile uint32_t lastMeasurementReceivedAt;] *)
  lastMeasurementReceivedAt : Z;
  (** [static timeMs_t lastMeasurementStartedAt = 0;] *)
  lastMeasurementStartedAt : Z;
  (** [static timeUs_t timing_start;] of [hcsr04_extiHandler] *)
  timing_start : Z;
  (** [static int32_t lastCalculatedDistance = RANGEFINDER_OUT_OF_RANGE;]
      of [hcsr04_get_distance] *)
  lastCalculatedDistance : Z
}.

(** The state at declaration: statics without an initialiser are zero. *)
Definition driver_at_boot : driver :=
  mkDriver 0 0 0 0 RANGEFINDER_OUT_OF_RANGE.

Definition wf_driver (s : driver) : Prop :=
  is_s32 (hcsr04SonarPulseTravelTime s) /\
  is_u32 (lastMeasurementReceivedAt s) /\
  is_u32 (lastMeasurementStartedAt s) /\
  is_u32 (timing_start s) /\
  is_s32 (lastCalculatedDistance s).

Definition set_timing_start (v : Z) (s : driver) : driver :=
  mkDriver (hcsr04SonarPulseTravelTime s) (lastMeasurementReceivedAt s)
           (lastMeasurementStartedAt s) v (lastCalculatedDistance s).

Definition set_lastMeasurementReceivedAt (v : Z) (s : driver) : driver :=
  mkDriver (hcsr04SonarPulseTravelTime s) v
           (lastMeasurementStartedAt s) (timing_start s) (lastCalculatedDistance s).

Definition set_hcsr04SonarPulseTravelTime (v : Z) (s : driver) : driver :=
  mkDriver v (lastMeasurementReceivedAt s)
           (lastMeasurementStartedAt s) (timing_start s) (lastCalculatedDistance s).

Definition set_lastMeasurementStartedAt (v : Z) (s : driver) : driver :=
  mkDriver (hcsr04SonarPulseTravelTime s) (lastMeasurementReceivedAt s)
           v (timing_start s) (lastCalculatedDistance s).

Definition set_lastCalculatedDistance (v : Z) (s : driver) : driver :=
  mkDriver (hcsr04SonarPulseTravelTime s) (lastMeasurementReceivedAt s)
           (lastMeasurementStartedAt s) (timing_start s) v.

(** ** Trigger line *)

Inductive io_event : Type :=
| IOHi
| IOLo
| delayMicroseconds (us : Z).

(** The pulse on the trigger pin; [inverted] is [SONAR_TRIG_INVERTED]. *)
Definition trigger_pulse (inverted : bool) : list io_event :=
  if inverted then [IOLo; delayMicroseconds 11; IOHi]
  else [IOHi; delayMicroseconds 11; IOLo].

(** ** Echo capture: [hcsr04_extiHandler]

    [echo] is [IORead(echoIO) != 0], [us] the value of [micros()] and [ms]
    the value [millis()] has when the handler runs.  The difference of the
    two [timeUs_t] ticks is stored into the [timeDelta_t] static. *)
Definition hcsr04_extiHandler (echo : bool) (us ms : Z) (s : driver) : driver :=
  if echo then set_timing_start us s
  else
    let timing_stop := us in
    if timing_stop >? timing_start s then
      set_hcsr04SonarPulseTravelTime
        (s32 (u32 (timing_stop - timing_start s)))
        (set_lastMeasurementReceivedAt ms s)
    else s.

(** ** [hcsr04_init] *)
Definition hcsr04_init (s : driver) : driver := s.

(** ** Trigger controller: [hcsr04_start_reading]

    Returns the new state and what was driven on the trigger pin. *)
Definition hcsr04_start_reading (inverted : bool) (timeNowMs : Z) (s : driver)
  : driver * list io_event :=
  if timeNowMs >? u32 (lastMeasurementStartedAt s + HCSR04_MinimumFiringIntervalMs) then
    (set_lastMeasurementStartedAt timeNowMs s, trigger_pulse inverted)
  else (s, []).

(** ** Distance estimator: [hcsr04_get_distance]

    The function first loads [lastMeasurementReceivedAt] and compares it with
    [lastMeasurementStartedAt]; only then, in the first branch, does it load
    [hcsr04SonarPulseTravelTime].  The two halves are kept apart so that the
    interrupt handler can be placed between them (see [Preemption]). *)

(** The test of the first [if]. *)
Definition response_after_request (s : driver) : bool :=
  lastMeasurementReceivedAt s >? lastMeasurementStartedAt s.

(** The rest of the body, given the outcome of the first test.  The quotient
    of a [timeDelta_t] by the [int] constant 59 truncates toward zero. *)
Definition get_distance_body (fresh : bool) (timeNowMs : Z) (s : driver) : driver :=
  if fresh then
    let s1 := set_lastCalculatedDistance (Z.quot (hcsr04SonarPulseTravelTime s) 59) s in
    if lastCalculatedDistance s1 >? HCSR04_MAX_RANGE_CM then
      set_lastCalculatedDistance RANGEFINDER_OUT_OF_RANGE s1
    else s1
  else if u32 (timeNowMs - lastMeasurementStartedAt s) >? HCSR04_MinimumFiringIntervalMs then
    set_lastCalculatedDistance RANGEFINDER_HARDWARE_FAILURE s
  else s.

Definition hcsr04_get_distance (timeNowMs : Z) (s : driver) : Z * driver :=
  let s' := get_distance_body (response_after_request s) timeNowMs s in
  (lastCalculatedDistance s', s').

(** ** Sequences of driver calls

    The scheduler calls [hcsr04_init], [hcsr04_start_reading] and
    [hcsr04_get_distance]; the EXTI line calls [hcsr04_extiHandler].  A
    [call] carries what the clock and the echo pin read at that moment. *)

Inductive call : Type :=
| Init
| StartReading (timeNowMs : Z)
| EchoEdge (echo : bool) (us ms : Z)
| GetDistance (timeNowMs : Z).

(** One call: the new state and the distances handed back to the caller
    (one for [GetDistance], none otherwise). *)
Definition step (inverted : bool) (c : call) (s : driver) : driver * list Z :=
  match c with
  | Init => (hcsr04_init s, [])
  | StartReading now => (fst (hcsr04_start_reading inverted now s), [])
  | EchoEdge echo us ms => (hcsr04_extiHandler echo us ms s, [])
  | GetDistance now =>
      let (d, s') := hcsr04_get_distance now s in (s', [d])
  end.

Fixpoint run (inverted : bool) (tr : list call) (s : driver) : driver * list Z :=
  match tr with
  | [] => (s, [])
  | c :: tr' =>
      let (s1, r1) := step inverted c s in
      let (s2, r2) := run inverted tr' s1 in
      (s2, r1 ++ r2)
  end.

(** The clock values of a call fit their C types. *)
Definition wf_call (c : call) : Prop :=
  match c with
  | Init => True
  | StartReading now => is_u32 now
  | EchoEdge _ us ms => is_u32 us /\ is_u32 ms
  | GetDistance now => is_u32 now
  end.

(** The call is a falling edge that passes the handler's guard, so that it
    stores a new measurement. *)
Definition publishes (c : call) (s : driver) : bool :=
  match c with
  | EchoEdge false us _ => us >? timing_start s
  | _ => false
  end.

(** [along inverted C tr s]: every call of [tr] meets the side condition [C]
    in the state it finds when [tr] is run from [s]. *)
Fixpoint along (inverted : bool) (C : call -> driver -> Prop)
    (tr : list call) (s : driver) : Prop :=
  match tr with
  | [] => True
  | c :: tr' => C c s /\ along inverted C tr' (fst (step inverted c s))
  end.

(** A [GetDistance] that finds no response later than the request. *)
Definition stale_read (c : call) (s : driver) : Prop :=
  match c with
  | GetDistance _ => response_after_request s = false
  | _ => True
  end.

(** A falling edge whose pulse is shorter than [2^31] microseconds, so that
    its width fits a [timeDelta_t]. *)
Definition pulse_fits (c : call) (s : driver) : Prop :=
  match c with
  | EchoEdge false us _ => us - timing_start s < s32_half
  | _ => True
  end.

(** No [GetDistance] of the sequence finds a response later than the
    request. *)
Definition no_fresh_reading (inverted : bool) : list call -> driver -> Prop :=
  along inverted stale_read.

(** No call of the sequence stores a measurement. *)
Definition no_measurement (inverted : bool) : list call -> driver -> Prop :=
  along inverted (fun c s => publishes c s = false).

(** Every echo pulse the sequence measures fits a [timeDelta_t]. *)
Definition pulses_fit_timeDelta (inverted : bool) : list call -> driver -> Prop :=
  along inverted pulse_fits.

(** The invariant behind the range of the readings: the stored travel time
    is not negative and the cached distance is a distance reading. *)
Definition reading_invariant (s : driver) : Prop :=
  0 <= hcsr04SonarPulseTravelTime s /\
  is_u32 (timing_start s) /\
  is_distance_reading (lastCalculatedDistance s).

(** Nothing measured yet: the response time stamp is still zero and the
    cache holds a sentinel. *)
Definition unmeasured (s : driver) : Prop :=
  lastMeasurementReceivedAt s = 0 /\
  0 <= lastMeasurementStartedAt s /\
  is_sentinel (lastCalculatedDistance s).

(** ** Preemption of the reader by the echo interrupt

    [hcsr04_get_distance] runs in the scheduler, [hcsr04_extiHandler] in
    interrupt context: a handler runs to completion between two instructions
    of the reader.  The reader loads the two volatile statics one after the
    other, [lastMeasurementReceivedAt] first.  [irqs] are the echo edges
    handled between the two loads. *)

Module Preemption.

(** An echo edge: pin level, [micros()], [millis()]. *)
Definition irq : Type := (bool * Z * Z)%type.

Definition handle (s : driver) (e : irq) : driver :=
  let '(echo, us, ms) := e in hcsr04_extiHandler echo us ms s.

Definition run_irqs (irqs : list irq) (s : driver) : driver :=
  fold_left handle irqs s.

(** The pair of statics as it stands in memory. *)
Definition published_pair (s : driver) : Z * Z :=
  (lastMeasurementReceivedAt s, hcsr04SonarPulseTravelTime s).

(** Every pair that stood in memory while the reader ran: before the
    first handler and after each one. *)
Fixpoint snapshots (irqs : list irq) (s : driver) : list (Z * Z) :=
  published_pair s ::
  match irqs with
  | [] => []
  | e :: irqs' => snapshots irqs' (handle s e)
  end.

(** The pair the reader loads. *)
Definition observed_pair (irqs : list irq) (s : driver) : Z * Z :=
  (lastMeasurementReceivedAt s, hcsr04SonarPulseTravelTime (run_irqs irqs s)).

(** [hcsr04_get_distance] with [irqs] handled after the load of
    [lastMeasurementReceivedAt]. *)
Definition hcsr04_get_distance_preempted
    (timeNowMs : Z) (irqs : list irq) (s : driver) : Z * driver :=
  let fresh := response_after_request s in
  let s' := get_distance_body fresh timeNowMs (run_irqs irqs s) in
  (lastCalculatedDistance s', s').

End Preemption.

(** ** Trigger pulses of a sequence of calls *)

(** The times of the calls of [tr] that drove the trigger pin. *)
Fixpoint firings (inverted : bool) (tr : list call) (s : driver) : list Z :=
  match tr with
  | [] => []
  | c :: tr' =>
      match c with
      | StartReading now =>
          match snd (hcsr04_start_reading inverted now s) with
          | [] => []
          | _ :: _ => [now]
          end
      | _ => []
      end ++ firings inverted tr' (fst (step inverted c s))
  end.

(** Each time of the list is more than 60 ms after the one before it, and
    the first one more than 60 ms after [last]. *)
Fixpoint spaced (last : Z) (l : list Z) : Prop :=
  match l with
  | [] => True
  | t :: l' => t > last + HCSR04_MinimumFiringIntervalMs /\ spaced t l'
  end.

(** The sum [timeNowMs + 60] a later call will form does not overflow. *)
Definition sum_fits (c : call) : Prop :=
  match c with
  | StartReading now => now + HCSR04_MinimumFiringIntervalMs < u32_modulus
  | _ => True
  end.

(** Kinds of calls. *)
Definition is_read (c : call) : Prop :=
  match c with GetDistance _ => True | _ => False end.

Definition is_trigger (c : call) : Prop :=
  match c with StartReading _ => True | _ => False end.

Definition is_edge (c : call) : Prop :=
  match c with EchoEdge _ _ _ => True | _ => False end.

(** The clock readings of the call are below [limit]. *)
Definition reads_below (limit : Z) (c : call) : Prop :=
  match c with
  | Init => True
  | StartReading now => 0 <= now < limit
  | EchoEdge _ _ ms => 0 <= ms < limit
  | GetDistance now => 0 <= now < limit
  end.

(** What scenario 1 of [hcsr04_get_distance] makes of a travel time. *)
Definition distance_of_travel_time (t : Z) : Z :=
  if Z.quot t 59 >? HCSR04_MAX_RANGE_CM then RANGEFINDER_OUT_OF_RANGE
  else Z.quot t 59.

(** ** Detection: [hcsr04Detect]

    [hcsr04Detect] talks to the platform: it asks for the owners of the two
    pins, drives and reads pins, reads the clock and busy-waits on it.  The
    platform functions are not part of the driver; a call of one of them is
    recorded as an [effect] with the arguments the source passes, and what
    [millis()] and [IORead(echoIO)] return is read off two tapes.  A run that
    needs a clock or pin value when its tape is empty has no result. *)

Module Detect.

(** [#define HCSR04_DETECTION_CONE_DECIDEGREES 300] and
    [#define HCSR04_DETECTION_CONE_EXTENDED_DECIDEGREES 450]. *)
Definition HCSR04_DETECTION_CONE_DECIDEGREES : Z := 300.
Definition HCSR04_DETECTION_CONE_EXTENDED_DECIDEGREES : Z := 450.

(** The platform types, as far as the driver names their values. *)
Inductive resourceOwner_e : Type :=
| OWNER_FREE
| OWNER_SONAR
| OWNER_other (id : nat).

Inductive resourceType_e : Type := RESOURCE_INPUT | RESOURCE_OUTPUT.

Inductive ioConfig_t : Type := IOCFG_OUT_PP | IOCFG_IN_FLOATING.

Inductive rccPeriphTag_t : Type := RCC_APB2_AFIO | RCC_APB2_SYSCFG.

Definition ioTag_t : Type := Z.

(** A pin: none, or the one [IOGetByTag] gives for a tag. *)
Inductive IO_t : Type :=
| IO_NONE
| IOGetByTag (tag : ioTag_t).

Record rangefinderHardwarePins_t : Type := mkPins {
  triggerTag : ioTag_t;
  echoTag : ioTag_t
}.

(** The three functions a detected device is given. *)
Inductive rangefinderOp : Type :=
| op_hcsr04_init
| op_hcsr04_start_reading
| op_hcsr04_get_distance.

(** The fields of [rangefinderDev_t] the driver fills in. *)
Record rangefinderDev_t : Type := mkDev {
  delayMs : Z;
  maxRangeCm : Z;
  detectionConeDeciDegrees : Z;
  detectionConeExtendedDeciDegrees : Z;
  init : option rangefinderOp;
  update : option rangefinderOp;
  read : option rangefinderOp
}.

(** The preprocessor symbols the function depends on. *)
Record build : Type := mkBuild {
  STM32F10X : bool;
  STM32F3 : bool;
  STM32F4 : bool;
  USE_EXTI : bool;
  SONAR_TRIG_INVERTED : bool
}.

(** Calls of platform functions.  [OnPin io e] is [IOHi(io)], [IOLo(io)] or
    the [delayMicroseconds] between the two; [IOInit io o r] is
    [IOInit(io, o, r, 0)]; [RCC_ClockCmd p] is [RCC_ClockCmd(p, ENABLE)];
    [addBootlogEvent4 o] is
    [addBootlogEvent4(BOOT_EVENT_HARDWARE_IO_CONFLICT,
    BOOT_EVENT_FLAGS_WARNING, o, OWNER_SONAR)]; [EXTIConfig io] is
    [EXTIConfig(io, &hcsr04_extiCallbackRec, NVIC_PRIO_SONAR_EXTI,
    EXTI_Trigger_Rising_Falling)]. *)
Inductive effect : Type :=
| RCC_ClockCmd (periph : rccPeriphTag_t)
| addBootlogEvent4 (owner : resourceOwner_e)
| IOInit (io : IO_t) (owner : resourceOwner_e) (resource : resourceType_e)
| IOConfigGPIO (io : IO_t) (cfg : ioConfig_t)
| OnPin (io : IO_t) (e : io_event)
| delay (ms : Z)
| EXTIHandlerInit
| EXTIConfig (io : IO_t)
| EXTIEnable (io : IO_t) (enable : bool)
| IORelease (io : IO_t).

(** The statics of the file, the two tapes and the calls made so far, the
    oldest first. *)
Record machine : Type := mkMachine {
  drv : driver;
  triggerIO : IO_t;
  echoIO : IO_t;
  millis_tape : list Z;
  echo_tape : list bool;
  trace : list effect
}.

Definition M (A : Type) : Type := machine -> option (A * machine).

Definition ret {A : Type} (a : A) : M A := fun m => Some (a, m).

Definition bind {A B : Type} (c : M A) (k : A -> M B) : M B :=
  fun m =>
    match c m with
    | Some (a, m') => k a m'
    | None => None
    end.

Notation "x <- c ;; k" := (bind c (fun x => k))
  (at level 61, c at next level, right associativity).
Notation "c ;; k" := (bind c (fun _ => k))
  (at level 61, right associativity).

(** [millis()]. *)
Definition millis : M Z :=
  fun m =>
    match millis_tape m with
    | [] => None
    | now :: rest =>
        Some (now, mkMachine (drv m) (triggerIO m) (echoIO m) rest
                             (echo_tape m) (trace m))
    end.

(** [IORead(echoIO)]. *)
Definition IORead_echoIO : M bool :=
  fun m =>
    match echo_tape m with
    | [] => None
    | level :: rest =>
        Some (level, mkMachine (drv m) (triggerIO m) (echoIO m) (millis_tape m)
                               rest (trace m))
    end.

(** A call of a platform function. *)
Definition call_platform (es : list effect) : M unit :=
  fun m =>
    Some (tt, mkMachine (drv m) (triggerIO m) (echoIO m) (millis_tape m)
                        (echo_tape m) (trace m ++ es)).

Definition set_pins (trig echo : IO_t) : M unit :=
  fun m =>
    Some (tt, mkMachine (drv m) trig echo (millis_tape m) (echo_tape m) (trace m)).

Definition get_triggerIO : M IO_t := fun m => Some (triggerIO m, m).
Definition get_echoIO : M IO_t := fun m => Some (echoIO m, m).

(** [hcsr04_start_reading()]: reads the clock, updates the driver and drives
    [triggerIO]. *)
Definition start_reading (b : build) : M unit :=
  now <- millis ;;
  fun m =>
    let (d, io) := hcsr04_start_reading (SONAR_TRIG_INVERTED b) now (drv m) in
    Some (tt, mkMachine d (triggerIO m) (echoIO m) (millis_tape m) (echo_tape m)
                        (trace m ++ map (OnPin (triggerIO m)) io)).

(** The loop
    [while ((millis() - requestTime) < HCSR04_MinimumFiringIntervalMs)
       if (IORead(echoIO) == true) { detected = true; break; }];
    the result is [detected].  Each turn reads the clock once, so the length
    of the clock tape is fuel enough. *)
Fixpoint wait_for_echo (fuel : nat) (requestTime : Z) : M bool :=
  match fuel with
  | O => fun _ => None
  | S fuel' =>
      now <- millis ;;
      if u32 (now - requestTime) <? HCSR04_MinimumFiringIntervalMs then
        level <- IORead_echoIO ;;
        if level then ret true else wait_for_echo fuel' requestTime
      else ret false
  end.

(** The loop [for (int i = 0; i < 5 && !detected; i++)], with [n] turns
    left. *)
Fixpoint attempts (b : build) (n : nat) : M bool :=
  match n with
  | O => ret false
  | S n' =>
      requestTime <- millis ;;
      start_reading b ;;
      detected <- (fun m => wait_for_echo (length (millis_tape m)) requestTime m) ;;
      if detected then ret true else attempts b n'
  end.

(** The clock commands at the head of the function. *)
Definition rcc_commands (b : build) : list effect :=
  (if STM32F10X b then [RCC_ClockCmd RCC_APB2_AFIO] else []) ++
  (if STM32F3 b || STM32F4 b then [RCC_ClockCmd RCC_APB2_SYSCFG] else []).

Definition is_free (o : resourceOwner_e) : bool :=
  match o with
  | OWNER_FREE => true
  | _ => false
  end.

(** What a detected device is set to. *)
Definition detected_dev : rangefinderDev_t :=
  mkDev 100 HCSR04_MAX_RANGE_CM
        HCSR04_DETECTION_CONE_DECIDEGREES
        HCSR04_DETECTION_CONE_EXTENDED_DECIDEGREES
        (Some op_hcsr04_init) (Some op_hcsr04_start_reading)
        (Some op_hcsr04_get_distance).

(** [hcsr04Detect(dev, sonarHardwarePins)]; [IOGetOwner] is the owner table
    of the platform when the function is called.  The result is the value
    returned and the device record left behind. *)
Definition hcsr04Detect (b : build) (IOGetOwner : IO_t -> resourceOwner_e)
    (dev : rangefinderDev_t) (sonarHardwarePins : rangefinderHardwarePins_t)
  : M (bool * rangefinderDev_t) :=
  call_platform (rcc_commands b) ;;
  set_pins (IOGetByTag (triggerTag sonarHardwarePins))
           (IOGetByTag (echoTag sonarHardwarePins)) ;;
  trig <- get_triggerIO ;;
  echo <- get_echoIO ;;
  if negb (is_free (IOGetOwner trig)) then
    call_platform [addBootlogEvent4 (IOGetOwner trig)] ;;
    ret (false, dev)
  else if negb (is_free (IOGetOwner echo)) then
    call_platform [addBootlogEvent4 (IOGetOwner echo)] ;;
    ret (false, dev)
  else
    call_platform [IOInit trig OWNER_SONAR RESOURCE_OUTPUT;
                   IOConfigGPIO trig IOCFG_OUT_PP;
                   OnPin trig IOLo;
                   delay 100;
                   IOInit echo OWNER_SONAR RESOURCE_INPUT;
                   IOConfigGPIO echo IOCFG_IN_FLOATING] ;;
    level <- IORead_echoIO ;;
    detected <- (if level then ret false else attempts b 5) ;;
    if detected then
      call_platform (if USE_EXTI b
                     then [EXTIHandlerInit; EXTIConfig echo; EXTIEnable echo true]
                     else []) ;;
      ret (true, detected_dev)
    else
      call_platform [IORelease trig; IORelease echo] ;;
      ret (false, dev).

(** The trigger pulses among the calls: each pulse holds the pin for 11
    microseconds. *)
Definition is_pulse (e : effect) : bool :=
  match e with
  | OnPin _ (delayMicroseconds _) => true
  | _ => false
  end.

Definition pulses (es : list effect) : nat := length (filter is_pulse es).

Definition is_release (e : effect) : bool :=
  match e with
  | IORelease _ => true
  | _ => false
  end.


(** A clock reading at least 60 ms after [requestTime]. *)
Definition past_deadline (requestTime now : Z) : bool :=
  negb (u32 (now - requestTime) <? HCSR04_MinimumFiringIntervalMs).

(** The clock keeps time: after every reading that has more than [bound]
    later ones, one of the [bound] readings that follow the next one is at
    least 60 ms later. *)
Fixpoint keeps_time (bound : nat) (clock : list Z) : bool :=
  match clock with
  | [] => true
  | t :: rest =>
      ((length (tl rest) <? bound)%nat
       || existsb (past_deadline t) (firstn bound (tl rest)))
      && keeps_time bound rest
  end.

(** The three groups of platform calls of [hcsr04Detect] outside its loop:
    taking the two pins, enabling the interrupt after a detection, giving
    the pins back after a failure. *)
Definition claim_pins (trig echo : IO_t) : list effect :=
  [IOInit trig OWNER_SONAR RESOURCE_OUTPUT;
   IOConfigGPIO trig IOCFG_OUT_PP;
   OnPin trig IOLo;
   delay 100;
   IOInit echo OWNER_SONAR RESOURCE_INPUT;
   IOConfigGPIO echo IOCFG_IN_FLOATING].

Definition enable_exti (b : build) (echo : IO_t) : list effect :=
  if USE_EXTI b then [EXTIHandlerInit; EXTIConfig echo; EXTIEnable echo true]
  else [].

Definition release_pins (trig echo : IO_t) : list effect :=
  [IORelease trig; IORelease echo].

(** The pins and every static but [lastMeasurementStartedAt] are the same
    in both machines. *)
Record same_statics (m m' : machine) : Prop := mkSame {
  same_trigger : triggerIO m' = triggerIO m;
  same_echo : echoIO m' = echoIO m;
  same_travel : hcsr04SonarPulseTravelTime (drv m') = hcsr04SonarPulseTravelTime (drv m);
  same_received : lastMeasurementReceivedAt (drv m') = lastMeasurementReceivedAt (drv m);
  same_pending : timing_start (drv m') = timing_start (drv m);
  same_cached : lastCalculatedDistance (drv m') = lastCalculatedDistance (drv m)
}.

(** The events are all on the pin [io]. *)
Definition on_pin (io : IO_t) (es : list effect) : Prop :=
  Forall (fun e => exists ev, e = OnPin io ev) es.

(** A clock that is read [per_ms] times in every millisecond, for [ms]
    milliseconds from [t] on. *)
Fixpoint slow_clock (per_ms : nat) (t : Z) (ms : nat) : list Z :=
  match ms with
  | O => []
  | S ms' => repeat t per_ms ++ slow_clock per_ms (t + 1) ms'
  end.

(** *** A board to run the detection on

    An STM32F4 build with [USE_EXTI], trigger on tag 1 and echo on tag 2, an
    empty device record and the driver as it is at boot. *)
Definition f4_build : build := mkBuild false false true true false.

Definition sonar_pins : rangefinderHardwarePins_t := mkPins 1 2.

Definition blank_dev : rangefinderDev_t := mkDev 0 0 0 0 None None None.

Definition all_free : IO_t -> resourceOwner_e := fun _ => OWNER_FREE.


Definition at_boot (clock : list Z) (echo : list bool) : machine :=
  mkMachine driver_at_boot IO_NONE IO_NONE clock echo [].

(** A clock read once per millisecond, [n] times from [t0] on. *)
Definition ticking_clock (t0 : Z) (n : nat) : list Z :=
  map (fun i => t0 + Z.of_nat i) (seq 0 n).

End Detect.

(** * Properties *)

(** ** Facts on machine integers *)

Section MachineIntFacts.

Lemma u32_range z : is_u32 (u32 z).
Proof. unfold is_u32, u32, u32_modulus. apply Z.mod_pos_bound. lia. Qed.

Lemma u32_small z : is_u32 z -> u32 z = z.
Proof. unfold is_u32, u32. intros H. apply Z.mod_small. exact H. Qed.

Lemma s32_range z : is_s32 (s32 z).
Proof.
  unfold is_s32, s32.
  pose proof (Z.mod_pos_bound z u32_modulus) as H.
  unfold u32_modulus, s32_half in *.
  destruct (Z.ltb_spec (z mod 2 ^ 32) (2 ^ 31)); lia.
Qed.

Lemma s32_small z : 0 <= z < s32_half -> s32 z = z.
Proof.
  unfold s32, s32_half, u32_modulus. intros H.
  rewrite Z.mod_small by lia.
  destruct (Z.ltb_spec z (2 ^ 31)); lia.
Qed.

Lemma s32_large z : s32_half <= z < u32_modulus -> s32 z = z - u32_modulus.
Proof.
  unfold s32, s32_half, u32_modulus. intros H.
  rewrite Z.mod_small by lia.
  destruct (Z.ltb_spec z (2 ^ 31)); lia.
Qed.

(** Difference of two [uint32_t] values when the minuend is the larger:
    no wrap-around happens. *)
Lemma u32_sub_no_wrap a b : is_u32 a -> is_u32 b -> b < a -> u32 (a - b) = a - b.
Proof. unfold is_u32. intros Ha Hb Hlt. apply u32_small. unfold is_u32. lia. Qed.

(** Difference of two [uint32_t] values when the minuend is the smaller:
    the result wraps. *)
Lemma u32_sub_wrap a b : is_u32 a -> is_u32 b -> a < b -> u32 (a - b) = a - b + u32_modulus.
Proof.
  unfold is_u32, u32, u32_modulus. intros Ha Hb Hlt.
  symmetry. apply Z.mod_unique with (q := -1); lia.
Qed.

Lemma u32_add_no_wrap a b : 0 <= a -> 0 <= b -> a + b < u32_modulus -> u32 (a + b) = a + b.
Proof. intros. apply u32_small. unfold is_u32. lia. Qed.

Lemma u32_add_wrap a b :
  is_u32 a -> is_u32 b -> u32_modulus <= a + b -> u32 (a + b) = a + b - u32_modulus.
Proof.
  unfold is_u32, u32, u32_modulus. intros Ha Hb Hge.
  symmetry. apply Z.mod_unique with (q := 1); lia.
Qed.

End MachineIntFacts.

(** ** Invariants along a sequence of calls *)

Lemma step_get_distance (inverted : bool) (now : Z) (s : driver) :
  step inverted (GetDistance now) s
  = (snd (hcsr04_get_distance now s), [fst (hcsr04_get_distance now s)]).
Proof. unfold step. destruct (hcsr04_get_distance now s). reflexivity. Qed.

Section RunInvariant.

Variable inverted : bool.
Variable Inv : driver -> Prop.
Variable Res : Z -> Prop.
Variable Cond : call -> driver -> Prop.

(** Each call that meets [Cond] keeps [Inv] and hands back values in
    [Res]. *)
Hypothesis step_keeps :
  forall c s, Inv s -> Cond c s ->
    Inv (fst (step inverted c s)) /\ Forall Res (snd (step inverted c s)).

Lemma run_keeps (tr : list call) :
  forall s, Inv s -> along inverted Cond tr s ->
    Inv (fst (run inverted tr s)) /\ Forall Res (snd (run inverted tr s)).
Proof.
  induction tr as [| c tr IH]; intros s Hinv Halong.
  - cbn. split; [exact Hinv | constructor].
  - destruct Halong as [Hc Hrest].
    destruct (step_keeps c s Hinv Hc) as [Hinv1 Hres1].
    cbn [run].
    destruct (step inverted c s) as [s1 r1]. cbn [fst snd] in *.
    destruct (IH s1 Hinv1 Hrest) as [Hinv2 Hres2].
    destruct (run inverted tr s1) as [s2 r2]. cbn [fst snd] in *.
    split; [exact Hinv2 | apply Forall_app; split; assumption].
Qed.

End RunInvariant.

Lemma along_conj (inverted : bool) (C1 C2 : call -> driver -> Prop) (tr : list call) :
  forall s,
    along inverted C1 tr s -> along inverted C2 tr s ->
    along inverted (fun c s => C1 c s /\ C2 c s) tr s.
Proof.
  induction tr as [| c tr IH]; intros s H1 H2; cbn in *; [exact I |].
  destruct H1 as [H1 H1'], H2 as [H2 H2']. auto.
Qed.

Lemma along_Forall (inverted : bool) (P : call -> Prop) (tr : list call) :
  Forall P tr -> forall s, along inverted (fun c _ => P c) tr s.
Proof.
  induction 1 as [| c tr Hc Htr IH]; intros s; cbn; [exact I |].
  split; [exact Hc | apply IH].
Qed.

(** The two cases of the second test of [hcsr04_get_distance]. *)
Ltac window_cases now s :=
  let Hwin := fresh "Hwin" in
  let Hout := fresh "Hout" in
  destruct (Z_le_gt_dec (u32 (now - lastMeasurementStartedAt s))
                        HCSR04_MinimumFiringIntervalMs) as [Hwin | Hout].

(** ** The three scenarios of [hcsr04_get_distance] *)

Section Reader.

Variable timeNowMs : Z.
Variable s : driver.

(** Scenario 1 of the source comment: "Response was after request - good,
    calculate new response". *)
Lemma get_distance_scenario1 :
  response_after_request s = true ->
  hcsr04_get_distance timeNowMs s =
    let d := Z.quot (hcsr04SonarPulseTravelTime s) 59 in
    if d >? HCSR04_MAX_RANGE_CM
    then (RANGEFINDER_OUT_OF_RANGE,
          set_lastCalculatedDistance RANGEFINDER_OUT_OF_RANGE s)
    else (d, set_lastCalculatedDistance d s).
Proof.
  intros Hfresh. unfold hcsr04_get_distance, get_distance_body.
  rewrite Hfresh. cbn.
  destruct (Z.quot (hcsr04SonarPulseTravelTime s) 59 >? HCSR04_MAX_RANGE_CM);
    reflexivity.
Qed.

(** Scenario 2: "Request was no earlier than 60ms ago and no response since
    then - still good, return last valid response". *)
Lemma get_distance_scenario2 :
  response_after_request s = false ->
  u32 (timeNowMs - lastMeasurementStartedAt s) <= HCSR04_MinimumFiringIntervalMs ->
  hcsr04_get_distance timeNowMs s = (lastCalculatedDistance s, s).
Proof.
  intros Hstale Hwin. unfold hcsr04_get_distance, get_distance_body.
  rewrite Hstale.
  destruct (Z.gtb_spec (u32 (timeNowMs - lastMeasurementStartedAt s))
                       HCSR04_MinimumFiringIntervalMs); [lia | reflexivity].
Qed.

(** Scenario 3: "Request was earlier than 60ms ago and no response since
    then - hardware failure". *)
Lemma get_distance_scenario3 :
  response_after_request s = false ->
  u32 (timeNowMs - lastMeasurementStartedAt s) > HCSR04_MinimumFiringIntervalMs ->
  hcsr04_get_distance timeNowMs s =
    (RANGEFINDER_HARDWARE_FAILURE,
     set_lastCalculatedDistance RANGEFINDER_HARDWARE_FAILURE s).
Proof.
  intros Hstale Hout. unfold hcsr04_get_distance, get_distance_body.
  rewrite Hstale.
  destruct (Z.gtb_spec (u32 (timeNowMs - lastMeasurementStartedAt s))
                       HCSR04_MinimumFiringIntervalMs); [reflexivity | lia].
Qed.

(** The reader writes nothing but its own static. *)
Lemma get_distance_frame :
  let s' := snd (hcsr04_get_distance timeNowMs s) in
  hcsr04SonarPulseTravelTime s' = hcsr04SonarPulseTravelTime s /\
  lastMeasurementReceivedAt s' = lastMeasurementReceivedAt s /\
  lastMeasurementStartedAt s' = lastMeasurementStartedAt s /\
  timing_start s' = timing_start s.
Proof.
  unfold hcsr04_get_distance, get_distance_body. cbn.
  destruct (response_after_request s).
  - cbn. destruct (_ >? _); cbn; auto.
  - destruct (_ >? _); cbn; auto.
Qed.

(** The value handed back is the value left in the static. *)
Lemma get_distance_returns_static :
  fst (hcsr04_get_distance timeNowMs s) =
  lastCalculatedDistance (snd (hcsr04_get_distance timeNowMs s)).
Proof. reflexivity. Qed.

End Reader.

Lemma response_after_request_true s :
  response_after_request s = true <->
  lastMeasurementReceivedAt s > lastMeasurementStartedAt s.
Proof.
  unfold response_after_request.
  destruct (Z.gtb_spec (lastMeasurementReceivedAt s) (lastMeasurementStartedAt s));
    split; intros; try lia; try reflexivity; discriminate.
Qed.

Lemma response_after_request_false s :
  response_after_request s = false <->
  lastMeasurementReceivedAt s <= lastMeasurementStartedAt s.
Proof.
  unfold response_after_request.
  destruct (Z.gtb_spec (lastMeasurementReceivedAt s) (lastMeasurementStartedAt s));
    split; intros; try lia; try reflexivity; discriminate.
Qed.

(** ** C1: a fresh travel time within the rated range *)

(** C1. When the response is later than the request
    ([lastMeasurementReceivedAt > lastMeasurementStartedAt]) and the stored
    travel time [T] satisfies [0 < T <= 59 * 400], [hcsr04_get_distance]
    returns [T / 59] (integer division), the value lies in [[0, 400]], and it
    is what the call leaves in [lastCalculatedDistance]; nothing else
    changes. *)
Theorem get_distance_fresh_in_range (timeNowMs : Z) (s : driver) :
  lastMeasurementReceivedAt s > lastMeasurementStartedAt s ->
  0 < hcsr04SonarPulseTravelTime s <= 59 * HCSR04_MAX_RANGE_CM ->
  let d := hcsr04SonarPulseTravelTime s / 59 in
  hcsr04_get_distance timeNowMs s = (d, set_lastCalculatedDistance d s) /\
  0 <= d <= HCSR04_MAX_RANGE_CM /\
  lastCalculatedDistance (snd (hcsr04_get_distance timeNowMs s)) = d.
Proof.
  intros Hfresh [Hpos Hmax] d.
  assert (Hq : Z.quot (hcsr04SonarPulseTravelTime s) 59 = d)
    by (apply Z.quot_div_nonneg; lia).
  assert (Hd : 0 <= d <= HCSR04_MAX_RANGE_CM).
  { unfold d, HCSR04_MAX_RANGE_CM in *. split.
    - apply Z.div_pos; lia.
    - apply Z.div_le_upper_bound; lia. }
  assert (Heq : hcsr04_get_distance timeNowMs s = (d, set_lastCalculatedDistance d s)).
  { rewrite get_distance_scenario1 by (apply response_after_request_true; exact Hfresh).
    cbv zeta. rewrite Hq.
    destruct (Z.gtb_spec d HCSR04_MAX_RANGE_CM); [lia | reflexivity]. }
  rewrite Heq. auto.
Qed.

(** The scenario of the specification: trigger at 0, echo pulse of 290
    microseconds received at 6 ms; the reading is 4 cm. *)
Lemma get_distance_fresh_in_range_witness :
  let s := mkDriver 290 6 0 5000 RANGEFINDER_OUT_OF_RANGE in
  lastMeasurementReceivedAt s > lastMeasurementStartedAt s /\
  0 < hcsr04SonarPulseTravelTime s <= 59 * HCSR04_MAX_RANGE_CM /\
  hcsr04_get_distance 7 s = (4, mkDriver 290 6 0 5000 4).
Proof.
  cbv zeta. split; [simpl; lia |].
  split; [simpl; unfold HCSR04_MAX_RANGE_CM; lia |].
  apply (get_distance_fresh_in_range 7
           (mkDriver 290 6 0 5000 RANGEFINDER_OUT_OF_RANGE)).
  - simpl; lia.
  - simpl; unfold HCSR04_MAX_RANGE_CM; lia.
Defined.

(** The same scenario run from boot through the handler: rising edge at
    5000 microseconds, falling edge at 5290 microseconds handled at 6 ms. *)
Example run_echo_290us_reads_4cm :
  snd (run false [EchoEdge true 5000 5; EchoEdge false 5290 6; GetDistance 7]
         driver_at_boot) = [4].
Proof. reflexivity. Qed.

(** ** C2: a fresh travel time beyond the rated range *)

(** The test of the source is on the quotient, [distance > 400]: travel
    times from [59 * 400 + 1] to [59 * 401 - 1] still give 400 cm. *)
Lemma get_distance_fresh_quotient_400 (timeNowMs : Z) (s : driver) :
  lastMeasurementReceivedAt s > lastMeasurementStartedAt s ->
  59 * HCSR04_MAX_RANGE_CM <= hcsr04SonarPulseTravelTime s
                           < 59 * (HCSR04_MAX_RANGE_CM + 1) ->
  hcsr04_get_distance timeNowMs s =
    (HCSR04_MAX_RANGE_CM, set_lastCalculatedDistance HCSR04_MAX_RANGE_CM s).
Proof.
  unfold HCSR04_MAX_RANGE_CM. intros Hfresh HT.
  rewrite get_distance_scenario1 by (apply response_after_request_true; exact Hfresh).
  cbv zeta.
  assert (Hq : Z.quot (hcsr04SonarPulseTravelTime s) 59 = 400).
  { rewrite Z.quot_div_nonneg by lia.
    symmetry. apply Z.div_unique with (r := hcsr04SonarPulseTravelTime s - 59 * 400); lia. }
  rewrite Hq. reflexivity.
Qed.

(** C2, as stated, fails: a fresh travel time of 23601 microseconds exceeds
    [59 * 400] and the call returns 400, not [RANGEFINDER_OUT_OF_RANGE]. *)
Lemma get_distance_just_above_59x400_counterexample :
  let s := mkDriver 23601 6 0 5000 RANGEFINDER_OUT_OF_RANGE in
  wf_driver s /\
  lastMeasurementReceivedAt s > lastMeasurementStartedAt s /\
  hcsr04SonarPulseTravelTime s > 59 * HCSR04_MAX_RANGE_CM /\
  fst (hcsr04_get_distance 7 s) = 400 /\
  fst (hcsr04_get_distance 7 s) <> RANGEFINDER_OUT_OF_RANGE.
Proof.
  cbv zeta. unfold wf_driver, is_s32, is_u32, HCSR04_MAX_RANGE_CM. simpl.
  repeat split; try lia; try discriminate.
Qed.

(** C2, amended. When the response is later than the request and the stored
    travel time [T] is at least [59 * 401] (so that [T / 59 > 400]),
    [hcsr04_get_distance] returns [RANGEFINDER_OUT_OF_RANGE] and leaves it in
    [lastCalculatedDistance]; for [59 * 400 < T < 59 * 401] it returns 400. *)
Theorem get_distance_fresh_out_of_range (timeNowMs : Z) (s : driver) :
  lastMeasurementReceivedAt s > lastMeasurementStartedAt s ->
  (hcsr04SonarPulseTravelTime s >= 59 * (HCSR04_MAX_RANGE_CM + 1) ->
   hcsr04_get_distance timeNowMs s =
     (RANGEFINDER_OUT_OF_RANGE,
      set_lastCalculatedDistance RANGEFINDER_OUT_OF_RANGE s)) /\
  (59 * HCSR04_MAX_RANGE_CM < hcsr04SonarPulseTravelTime s
                            < 59 * (HCSR04_MAX_RANGE_CM + 1) ->
   hcsr04_get_distance timeNowMs s =
     (HCSR04_MAX_RANGE_CM, set_lastCalculatedDistance HCSR04_MAX_RANGE_CM s)).
Proof.
  intros Hfresh. split.
  - unfold HCSR04_MAX_RANGE_CM. intros HT.
    rewrite get_distance_scenario1 by (apply response_after_request_true; exact Hfresh).
    cbv zeta.
    assert (Hq : Z.quot (hcsr04SonarPulseTravelTime s) 59 > 400).
    { rewrite Z.quot_div_nonneg by lia.
      assert (401 <= hcsr04SonarPulseTravelTime s / 59)
        by (apply Z.div_le_lower_bound; lia).
      lia. }
    unfold HCSR04_MAX_RANGE_CM.
    destruct (Z.gtb_spec (Z.quot (hcsr04SonarPulseTravelTime s) 59) 400);
      [reflexivity | lia].
  - intros HT. apply get_distance_fresh_quotient_400; [exact Hfresh | lia].
Qed.

Lemma get_distance_fresh_out_of_range_witness :
  let s := mkDriver 23659 6 0 5000 17 in
  lastMeasurementReceivedAt s > lastMeasurementStartedAt s /\
  hcsr04SonarPulseTravelTime s >= 59 * (HCSR04_MAX_RANGE_CM + 1) /\
  hcsr04_get_distance 7 s =
    (RANGEFINDER_OUT_OF_RANGE, mkDriver 23659 6 0 5000 RANGEFINDER_OUT_OF_RANGE).
Proof.
  cbv zeta. split; [simpl; lia |].
  split; [simpl; unfold HCSR04_MAX_RANGE_CM; lia |].
  apply (proj1 (get_distance_fresh_out_of_range 7 (mkDriver 23659 6 0 5000 17)
                  ltac:(simpl; lia))).
  simpl; unfold HCSR04_MAX_RANGE_CM; lia.
Defined.

(** ** C3: the rate limit of [hcsr04_start_reading] *)

Section Trigger.

Variable inverted : bool.

(** The test of the source, [timeNowMs > lastMeasurementStartedAt + 60],
    decides alone. *)
Lemma start_reading_fires (timeNowMs : Z) (s : driver) :
  timeNowMs > u32 (lastMeasurementStartedAt s + HCSR04_MinimumFiringIntervalMs) ->
  hcsr04_start_reading inverted timeNowMs s =
    (set_lastMeasurementStartedAt timeNowMs s, trigger_pulse inverted).
Proof.
  intros H. unfold hcsr04_start_reading.
  destruct (Z.gtb_spec timeNowMs
              (u32 (lastMeasurementStartedAt s + HCSR04_MinimumFiringIntervalMs)));
    [reflexivity | lia].
Qed.

Lemma start_reading_skips (timeNowMs : Z) (s : driver) :
  timeNowMs <= u32 (lastMeasurementStartedAt s + HCSR04_MinimumFiringIntervalMs) ->
  hcsr04_start_reading inverted timeNowMs s = (s, []).
Proof.
  intros H. unfold hcsr04_start_reading.
  destruct (Z.gtb_spec timeNowMs
              (u32 (lastMeasurementStartedAt s + HCSR04_MinimumFiringIntervalMs)));
    [lia | reflexivity].
Qed.

(** Whatever it decides, the trigger leaves the measurement and the cached
    distance alone. *)
Lemma start_reading_frame (timeNowMs : Z) (s : driver) :
  let s' := fst (hcsr04_start_reading inverted timeNowMs s) in
  hcsr04SonarPulseTravelTime s' = hcsr04SonarPulseTravelTime s /\
  lastMeasurementReceivedAt s' = lastMeasurementReceivedAt s /\
  timing_start s' = timing_start s /\
  lastCalculatedDistance s' = lastCalculatedDistance s.
Proof.
  unfold hcsr04_start_reading. destruct (_ >? _); cbn; auto.
Qed.

(** The pulse: assert, hold for 11 microseconds, deassert. *)
Lemma trigger_pulse_shape :
  exists assert_level deassert_level,
    trigger_pulse inverted = [assert_level; delayMicroseconds 11; deassert_level] /\
    assert_level <> deassert_level.
Proof.
  destruct inverted; cbn.
  - exists IOLo, IOHi. split; [reflexivity | discriminate].
  - exists IOHi, IOLo. split; [reflexivity | discriminate].
Qed.

End Trigger.

(** C3, as stated, fails.  First, the interval is counted from the last
    call that fired, not from the last call: right after boot a call at 50 ms
    does nothing, and a second call 20 ms later, at 70 ms, fires and moves
    [lastMeasurementStartedAt] from 0 to 70.  Second, the sum
    [lastMeasurementStartedAt + 60] is a [uint32_t] sum: when the last
    trigger is within 60 ms of the top of the millisecond counter the sum
    wraps to a small value, and a call 10 ms after that trigger, with
    [now <= lastMeasurementStartedAt + 60], fires again. *)
Lemma start_reading_second_call_counterexample :
  (let s1 := fst (hcsr04_start_reading false 50 driver_at_boot) in
   let r2 := hcsr04_start_reading false 70 s1 in
   hcsr04_start_reading false 50 driver_at_boot = (driver_at_boot, []) /\
   70 - 50 <= HCSR04_MinimumFiringIntervalMs /\
   lastMeasurementStartedAt s1 = 0 /\
   lastMeasurementStartedAt (fst r2) = 70 /\
   snd r2 = [IOHi; delayMicroseconds 11; IOLo]) /\
  (let s := mkDriver 0 0 4294967266 0 RANGEFINDER_OUT_OF_RANGE in
   let now := 4294967276 in
   wf_driver s /\ is_u32 now /\
   now <= lastMeasurementStartedAt s + HCSR04_MinimumFiringIntervalMs /\
   now - lastMeasurementStartedAt s = 10 /\
   hcsr04_start_reading false now s =
     (set_lastMeasurementStartedAt now s, [IOHi; delayMicroseconds 11; IOLo])).
Proof.
  cbv zeta. unfold HCSR04_MinimumFiringIntervalMs, wf_driver, is_s32, is_u32.
  simpl. repeat split; try reflexivity; try lia; try discriminate.
Qed.

(** C3, amended. For a call of [hcsr04_start_reading] at time [now], with
    [lastMeasurementStartedAt + 60] below [2^32]: if
    [now <= lastMeasurementStartedAt + 60] the call does nothing (no pulse,
    state unchanged); otherwise it sets [lastMeasurementStartedAt] to [now]
    and emits one pulse of 11 microseconds on the trigger pin.  In
    particular a call within 60 ms after a call that fired does nothing. *)
Theorem start_reading_rate_limit (inverted : bool) (now : Z) (s : driver) :
  is_u32 now ->
  is_u32 (lastMeasurementStartedAt s) ->
  (lastMeasurementStartedAt s + HCSR04_MinimumFiringIntervalMs < u32_modulus ->
   now <= lastMeasurementStartedAt s + HCSR04_MinimumFiringIntervalMs ->
   hcsr04_start_reading inverted now s = (s, [])) /\
  (now > lastMeasurementStartedAt s + HCSR04_MinimumFiringIntervalMs ->
   hcsr04_start_reading inverted now s =
     (set_lastMeasurementStartedAt now s, trigger_pulse inverted) /\
   exists a b, trigger_pulse inverted = [a; delayMicroseconds 11; b] /\ a <> b) /\
  (forall now',
     now > lastMeasurementStartedAt s + HCSR04_MinimumFiringIntervalMs ->
     now + HCSR04_MinimumFiringIntervalMs < u32_modulus ->
     now <= now' <= now + HCSR04_MinimumFiringIntervalMs ->
     let s1 := fst (hcsr04_start_reading inverted now s) in
     hcsr04_start_reading inverted now' s1 = (s1, [])).
Proof.
  unfold is_u32, HCSR04_MinimumFiringIntervalMs. intros Hnow Hlast.
  assert (Hfire : now > lastMeasurementStartedAt s + 60 ->
                  hcsr04_start_reading inverted now s =
                    (set_lastMeasurementStartedAt now s, trigger_pulse inverted)).
  { intros Hgt. apply start_reading_fires.
    unfold HCSR04_MinimumFiringIntervalMs.
    rewrite u32_add_no_wrap by lia. exact Hgt. }
  split; [| split].
  - intros Hfit Hle. apply start_reading_skips.
    unfold HCSR04_MinimumFiringIntervalMs.
    rewrite u32_add_no_wrap by lia. exact Hle.
  - intros Hgt. split; [exact (Hfire Hgt) | apply trigger_pulse_shape].
  - intros now' Hgt Hfit Hwin. cbv zeta. rewrite (Hfire Hgt). cbn [fst].
    apply start_reading_skips.
    unfold HCSR04_MinimumFiringIntervalMs. cbn [lastMeasurementStartedAt set_lastMeasurementStartedAt].
    rewrite u32_add_no_wrap by lia. lia.
Qed.

(** A trigger at 100 ms from boot; a second call at 130 ms does nothing. *)
Lemma start_reading_rate_limit_witness :
  is_u32 100 /\
  is_u32 (lastMeasurementStartedAt driver_at_boot) /\
  hcsr04_start_reading false 100 driver_at_boot =
    (set_lastMeasurementStartedAt 100 driver_at_boot, trigger_pulse false) /\
  hcsr04_start_reading false 130 (set_lastMeasurementStartedAt 100 driver_at_boot) =
    (set_lastMeasurementStartedAt 100 driver_at_boot, []).
Proof.
  assert (H1 : is_u32 100) by (unfold is_u32, u32_modulus; lia).
  assert (H2 : is_u32 (lastMeasurementStartedAt driver_at_boot))
    by (unfold is_u32, u32_modulus; simpl; lia).
  pose proof (start_reading_rate_limit false 100 driver_at_boot H1 H2) as [_ [Hfire Hnext]].
  split; [exact H1 |]. split; [exact H2 |].
  split.
  - apply Hfire. simpl. unfold HCSR04_MinimumFiringIntervalMs. lia.
  - apply (Hnext 130); unfold HCSR04_MinimumFiringIntervalMs, u32_modulus; simpl; lia.
Defined.

(** ** C4: no response yet, request not older than 60 ms *)

(** Thirty milliseconds after [t0] on the millisecond counter, also across
    its wrap-around. *)
Lemma u32_elapsed_after (t0 dt : Z) :
  is_u32 dt -> u32 (u32 (t0 + dt) - t0) = dt.
Proof.
  intros Hdt. unfold u32.
  rewrite Zminus_mod_idemp_l.
  replace (t0 + dt - t0) with dt by lia.
  apply Z.mod_small. exact Hdt.
Qed.

(** On a counter that has not wrapped since the request the elapsed time
    is the plain difference. *)
Lemma u32_elapsed_plain (now t0 : Z) :
  t0 <= now -> now - t0 < u32_modulus -> u32 (now - t0) = now - t0.
Proof. intros Hle Hlt. apply u32_small. unfold is_u32. lia. Qed.

Lemma get_distance_waiting_plain (now : Z) (s : driver) :
  lastMeasurementReceivedAt s <= lastMeasurementStartedAt s ->
  lastMeasurementStartedAt s <= now
    <= lastMeasurementStartedAt s + HCSR04_MinimumFiringIntervalMs ->
  hcsr04_get_distance now s = (lastCalculatedDistance s, s).
Proof.
  intros Hstale Hwin. apply get_distance_scenario2.
  - apply response_after_request_false. exact Hstale.
  - rewrite u32_elapsed_plain; unfold HCSR04_MinimumFiringIntervalMs, u32_modulus in *; lia.
Qed.

Lemma get_distance_timeout_plain (now : Z) (s : driver) :
  is_u32 now -> is_u32 (lastMeasurementStartedAt s) ->
  lastMeasurementReceivedAt s <= lastMeasurementStartedAt s ->
  now > lastMeasurementStartedAt s + HCSR04_MinimumFiringIntervalMs ->
  hcsr04_get_distance now s =
    (RANGEFINDER_HARDWARE_FAILURE,
     set_lastCalculatedDistance RANGEFINDER_HARDWARE_FAILURE s).
Proof.
  unfold is_u32. intros Hnow Hstart Hstale Hout. apply get_distance_scenario3.
  - apply response_after_request_false. exact Hstale.
  - rewrite u32_elapsed_plain; unfold HCSR04_MinimumFiringIntervalMs, u32_modulus in *; lia.
Qed.

(** C4. When there is no fresh measurement
    ([lastMeasurementReceivedAt <= lastMeasurementStartedAt]) and the time
    elapsed since the request, [now - lastMeasurementStartedAt] on the
    millisecond counter, is at most 60 ms, [hcsr04_get_distance] returns the
    cached [lastCalculatedDistance] and changes nothing.  In particular,
    after a trigger at [t0] with no response later than [t0], a call at
    [t0 + 30] returns what was cached before the trigger. *)
Theorem get_distance_waiting_returns_cache (s : driver) :
  lastMeasurementReceivedAt s <= lastMeasurementStartedAt s ->
  (forall now,
     u32 (now - lastMeasurementStartedAt s) <= HCSR04_MinimumFiringIntervalMs ->
     hcsr04_get_distance now s = (lastCalculatedDistance s, s)) /\
  (forall inverted t0 s0,
     s = fst (hcsr04_start_reading inverted t0 s0) ->
     lastMeasurementStartedAt s = t0 ->
     hcsr04_get_distance (u32 (t0 + 30)) s = (lastCalculatedDistance s0, s)).
Proof.
  intros Hstale.
  assert (Hgen : forall now,
            u32 (now - lastMeasurementStartedAt s) <= HCSR04_MinimumFiringIntervalMs ->
            hcsr04_get_distance now s = (lastCalculatedDistance s, s)).
  { intros now Hwin. apply get_distance_scenario2.
    - apply response_after_request_false. exact Hstale.
    - exact Hwin. }
  split; [exact Hgen |].
  intros inverted t0 s0 Hs Ht0.
  rewrite Hgen.
  - f_equal. rewrite Hs.
    apply (start_reading_frame inverted t0 s0).
  - rewrite Ht0, u32_elapsed_after.
    + unfold HCSR04_MinimumFiringIntervalMs. lia.
    + unfold is_u32, u32_modulus. lia.
Qed.

(** A reading of 4 cm is cached, a trigger fires at 1000 ms, and the call at
    1030 ms returns the 4 cm. *)
Lemma get_distance_waiting_returns_cache_witness :
  let s0 := mkDriver 290 6 0 5000 4 in
  let s := fst (hcsr04_start_reading false 1000 s0) in
  lastMeasurementReceivedAt s <= lastMeasurementStartedAt s /\
  lastMeasurementStartedAt s = 1000 /\
  hcsr04_get_distance 1030 s = (4, s).
Proof.
  cbv zeta.
  split; [simpl; lia |]. split; [reflexivity |].
  apply (proj2 (get_distance_waiting_returns_cache
                  (fst (hcsr04_start_reading false 1000 (mkDriver 290 6 0 5000 4)))
                  ltac:(simpl; lia))
               false 1000 (mkDriver 290 6 0 5000 4)).
  - reflexivity.
  - reflexivity.
Defined.

(** ** Frame of the echo handler *)

Lemma extiHandler_frame (echo : bool) (us ms : Z) (s : driver) :
  let s' := hcsr04_extiHandler echo us ms s in
  lastMeasurementStartedAt s' = lastMeasurementStartedAt s /\
  lastCalculatedDistance s' = lastCalculatedDistance s.
Proof.
  unfold hcsr04_extiHandler. destruct echo; cbn; [auto |].
  destruct (_ >? _); cbn; auto.
Qed.

(** ** C5: no response, request older than 60 ms *)

(** A reader that finds no fresh measurement and a cached hardware failure
    reports the failure and keeps it. *)
Lemma get_distance_keeps_failure (now : Z) (s : driver) :
  response_after_request s = false ->
  lastCalculatedDistance s = RANGEFINDER_HARDWARE_FAILURE ->
  fst (hcsr04_get_distance now s) = RANGEFINDER_HARDWARE_FAILURE /\
  lastCalculatedDistance (snd (hcsr04_get_distance now s)) = RANGEFINDER_HARDWARE_FAILURE.
Proof.
  intros Hstale Hcache.
  window_cases now s.
  - rewrite (get_distance_scenario2 now s Hstale Hwin). cbn. auto.
  - rewrite (get_distance_scenario3 now s Hstale Hout). cbn. auto.
Qed.

(** A call whose read, if any, finds no fresh measurement keeps a cached
    failure and hands back nothing else. *)
Lemma step_keeps_failure (inverted : bool) (c : call) (s : driver) :
  lastCalculatedDistance s = RANGEFINDER_HARDWARE_FAILURE ->
  stale_read c s ->
  lastCalculatedDistance (fst (step inverted c s)) = RANGEFINDER_HARDWARE_FAILURE /\
  Forall (fun d => d = RANGEFINDER_HARDWARE_FAILURE) (snd (step inverted c s)).
Proof.
  intros Hcache Hc.
  destruct c as [| t | echo us ms | t].
  - cbn. split; [exact Hcache | constructor].
  - cbn [step fst snd]. split; [| constructor].
    rewrite <- Hcache. apply (start_reading_frame inverted t s).
  - cbn [step fst snd]. split; [| constructor].
    rewrite <- Hcache. apply (extiHandler_frame echo us ms s).
  - rewrite step_get_distance. cbn [fst snd].
    destruct (get_distance_keeps_failure t s Hc Hcache) as [Hret Hkept].
    split; [exact Hkept | constructor; [exact Hret | constructor]].
Qed.

(** The failure stays in the cache, and is the result of every read, along
    any sequence of calls whose reads find no fresh measurement. *)
Lemma failure_persists (inverted : bool) (tr : list call) (s : driver) :
  lastCalculatedDistance s = RANGEFINDER_HARDWARE_FAILURE ->
  no_fresh_reading inverted tr s ->
  lastCalculatedDistance (fst (run inverted tr s)) = RANGEFINDER_HARDWARE_FAILURE /\
  Forall (fun d => d = RANGEFINDER_HARDWARE_FAILURE) (snd (run inverted tr s)).
Proof.
  apply (run_keeps inverted
           (fun s => lastCalculatedDistance s = RANGEFINDER_HARDWARE_FAILURE)
           (fun d => d = RANGEFINDER_HARDWARE_FAILURE)
           stale_read (step_keeps_failure inverted)).
Qed.

(** C5. When there is no fresh measurement and more than 60 ms have elapsed
    since the request, [hcsr04_get_distance] returns
    [RANGEFINDER_HARDWARE_FAILURE] and overwrites [lastCalculatedDistance]
    with it; every later read returns the failure as well, along any
    sequence of driver calls, as long as the reads find no measurement later
    than the request. *)
Theorem get_distance_timeout_is_hardware_failure (now : Z) (s : driver) :
  lastMeasurementReceivedAt s <= lastMeasurementStartedAt s ->
  u32 (now - lastMeasurementStartedAt s) > HCSR04_MinimumFiringIntervalMs ->
  hcsr04_get_distance now s =
    (RANGEFINDER_HARDWARE_FAILURE,
     set_lastCalculatedDistance RANGEFINDER_HARDWARE_FAILURE s) /\
  forall inverted tr,
    no_fresh_reading inverted tr (snd (hcsr04_get_distance now s)) ->
    Forall (fun d => d = RANGEFINDER_HARDWARE_FAILURE)
           (snd (run inverted tr (snd (hcsr04_get_distance now s)))).
Proof.
  intros Hstale Hout.
  apply response_after_request_false in Hstale.
  rewrite (get_distance_scenario3 now s Hstale Hout).
  split; [reflexivity |].
  intros inverted tr Hno. cbn [snd] in *.
  apply (failure_persists inverted tr (set_lastCalculatedDistance RANGEFINDER_HARDWARE_FAILURE s)); [reflexivity | exact Hno].
Qed.

(** The scenario of the specification: trigger at 0 ms, no edge ever, read
    at 61 ms.  A later trigger and a later read still give the failure. *)
Lemma get_distance_timeout_is_hardware_failure_witness :
  lastMeasurementReceivedAt driver_at_boot <= lastMeasurementStartedAt driver_at_boot /\
  u32 (61 - lastMeasurementStartedAt driver_at_boot) > HCSR04_MinimumFiringIntervalMs /\
  fst (hcsr04_get_distance 61 driver_at_boot) = RANGEFINDER_HARDWARE_FAILURE /\
  snd (run false [StartReading 100; GetDistance 120; GetDistance 200]
         (snd (hcsr04_get_distance 61 driver_at_boot)))
  = [RANGEFINDER_HARDWARE_FAILURE; RANGEFINDER_HARDWARE_FAILURE].
Proof.
  assert (H1 : lastMeasurementReceivedAt driver_at_boot
               <= lastMeasurementStartedAt driver_at_boot) by (simpl; lia).
  assert (H2 : u32 (61 - lastMeasurementStartedAt driver_at_boot)
               > HCSR04_MinimumFiringIntervalMs) by (vm_compute; reflexivity).
  pose proof (get_distance_timeout_is_hardware_failure 61 driver_at_boot H1 H2)
    as [Hret _].
  split; [exact H1 |]. split; [exact H2 |].
  split; [rewrite Hret; reflexivity | reflexivity].
Defined.

(** ** C6: what the echo handler stores *)

Section EchoCapture.

Variables (us ms : Z) (s : driver).

(** Rising edge: only the pending time stamp changes. *)
Lemma extiHandler_rising_edge :
  hcsr04_extiHandler true us ms s = set_timing_start us s.
Proof. reflexivity. Qed.

(** Falling edge that fails the guard [timing_stop > timing_start]: nothing
    is stored. *)
Lemma extiHandler_discards :
  us <= timing_start s ->
  hcsr04_extiHandler false us ms s = s.
Proof.
  intros Hle. unfold hcsr04_extiHandler.
  destruct (Z.gtb_spec us (timing_start s)); [lia | reflexivity].
Qed.

(** Falling edge that passes the guard: both statics are written, the
    travel time with the tick difference converted to [timeDelta_t]. *)
Lemma extiHandler_publishes :
  us > timing_start s ->
  hcsr04_extiHandler false us ms s =
    set_hcsr04SonarPulseTravelTime (s32 (u32 (us - timing_start s)))
      (set_lastMeasurementReceivedAt ms s).
Proof.
  intros Hgt. unfold hcsr04_extiHandler.
  destruct (Z.gtb_spec us (timing_start s)); [reflexivity | lia].
Qed.

(** As long as the pulse is shorter than [2^31] microseconds the stored
    travel time is the elapsed time itself. *)
Lemma extiHandler_publishes_elapsed :
  is_u32 us -> is_u32 (timing_start s) ->
  us > timing_start s ->
  us - timing_start s < s32_half ->
  hcsr04_extiHandler false us ms s =
    set_hcsr04SonarPulseTravelTime (us - timing_start s)
      (set_lastMeasurementReceivedAt ms s).
Proof.
  intros Hus Hstart Hgt Hfit.
  rewrite extiHandler_publishes by exact Hgt.
  rewrite u32_sub_no_wrap by (assumption || lia).
  rewrite s32_small by (unfold s32_half in *; lia). reflexivity.
Qed.

(** From [2^31] microseconds on, the conversion to [timeDelta_t] makes the
    stored travel time negative. *)
Lemma extiHandler_publishes_negative :
  is_u32 us -> is_u32 (timing_start s) ->
  us - timing_start s >= s32_half ->
  hcsr04SonarPulseTravelTime (hcsr04_extiHandler false us ms s)
  = us - timing_start s - u32_modulus /\
  hcsr04SonarPulseTravelTime (hcsr04_extiHandler false us ms s) < 0.
Proof.
  intros Hus Hstart Hwide.
  assert (Hgt : us > timing_start s) by (unfold s32_half in Hwide; lia).
  rewrite extiHandler_publishes by exact Hgt.
  rewrite u32_sub_no_wrap by (assumption || lia).
  unfold is_u32, s32_half, u32_modulus in *.
  rewrite s32_large by (unfold s32_half, u32_modulus; lia).
  cbn. unfold u32_modulus. lia.
Qed.

(** A discarded sample changes nothing, so no later read can take it for a
    fresh measurement. *)
Lemma extiHandler_discarded_not_seen (now : Z) :
  us <= timing_start s ->
  hcsr04_get_distance now (hcsr04_extiHandler false us ms s)
  = hcsr04_get_distance now s.
Proof. intros Hle. rewrite extiHandler_discards by exact Hle. reflexivity. Qed.

End EchoCapture.

(** C6, on the failing input.  An echo pulse of 3 000 000 000 microseconds
    (here: a falling edge with the pending time stamp still 0) passes the
    guard of the handler, which stores not the elapsed time but
    [3000000000 - 2^32 = -1294967296] as travel time; the next read takes the
    measurement as fresh and returns [-21948598]. *)
Theorem extiHandler_wide_pulse_stores_negative_travel_time :
  let s := hcsr04_extiHandler false 3000000000 3000000 driver_at_boot in
  wf_driver driver_at_boot /\
  is_u32 3000000000 /\
  3000000000 - timing_start driver_at_boot > 0 /\
  lastMeasurementReceivedAt s = 3000000 /\
  hcsr04SonarPulseTravelTime s = -1294967296 /\
  hcsr04SonarPulseTravelTime s <> 3000000000 - timing_start driver_at_boot /\
  fst (hcsr04_get_distance 3000001 s) = -21948598.
Proof.
  cbv zeta. unfold wf_driver, is_s32, is_u32. simpl.
  repeat split; try lia; try discriminate.
Qed.

(** ** C8: the values a read can return *)

Lemma sentinels_are_readings :
  is_distance_reading RANGEFINDER_OUT_OF_RANGE /\
  is_distance_reading RANGEFINDER_HARDWARE_FAILURE.
Proof. split; right; [left | right]; reflexivity. Qed.

Lemma sentinels_not_in_range (d : Z) : is_sentinel d -> ~ in_range_cm d.
Proof.
  unfold is_sentinel, in_range_cm, RANGEFINDER_OUT_OF_RANGE,
    RANGEFINDER_HARDWARE_FAILURE, HCSR04_MAX_RANGE_CM.
  intros [-> | ->]; lia.
Qed.

(** With a travel time that is not negative, a read returns a distance
    reading and keeps the invariant. *)
Lemma get_distance_reading (now : Z) (s : driver) :
  reading_invariant s ->
  is_distance_reading (fst (hcsr04_get_distance now s)) /\
  reading_invariant (snd (hcsr04_get_distance now s)).
Proof.
  intros (HT & Hstart & Hcache).
  assert (Hval : is_distance_reading (fst (hcsr04_get_distance now s))).
  { destruct (response_after_request s) eqn:Hfresh.
    - rewrite get_distance_scenario1 by exact Hfresh. cbv zeta.
      destruct (Z.gtb_spec (Z.quot (hcsr04SonarPulseTravelTime s) 59)
                           HCSR04_MAX_RANGE_CM) as [Hgt | Hle]; cbn [fst].
      + apply sentinels_are_readings.
      + left. split; [| exact Hle].
        apply Z.quot_pos; lia.
    - window_cases now s.
      + rewrite get_distance_scenario2 by assumption. exact Hcache.
      + rewrite get_distance_scenario3 by assumption. apply sentinels_are_readings. }
  split; [exact Hval |].
  destruct (get_distance_frame now s) as (HT' & _ & _ & Hstart').
  unfold reading_invariant.
  rewrite HT', Hstart', <- get_distance_returns_static.
  auto.
Qed.

(** The handler keeps the invariant when the pulse fits a [timeDelta_t]. *)
Lemma extiHandler_reading_invariant (echo : bool) (us ms : Z) (s : driver) :
  is_u32 us ->
  (echo = false -> us - timing_start s < s32_half) ->
  reading_invariant s ->
  reading_invariant (hcsr04_extiHandler echo us ms s).
Proof.
  intros Hus Hfit (HT & Hstart & Hcache).
  destruct echo.
  - rewrite extiHandler_rising_edge. unfold reading_invariant. cbn. auto.
  - specialize (Hfit eq_refl).
    destruct (Z_le_gt_dec us (timing_start s)) as [Hle | Hgt].
    + rewrite extiHandler_discards by exact Hle. unfold reading_invariant. auto.
    + rewrite extiHandler_publishes_elapsed by assumption.
      unfold reading_invariant. cbn. repeat split; try lia; try apply Hstart; exact Hcache.
Qed.

(** One call keeps the invariant and hands back distance readings only. *)
Lemma step_keeps_reading_invariant (inverted : bool) (c : call) (s : driver) :
  reading_invariant s ->
  wf_call c /\ pulse_fits c s ->
  reading_invariant (fst (step inverted c s)) /\
  Forall is_distance_reading (snd (step inverted c s)).
Proof.
  intros Hinv [Hwf Hfit].
  destruct c as [| t | echo us ms | t].
  - cbn. split; [exact Hinv | constructor].
  - cbn [step fst snd]. split; [| constructor].
    destruct (start_reading_frame inverted t s) as (HT & _ & Hst & Hca).
    unfold reading_invariant. rewrite HT, Hst, Hca. exact Hinv.
  - cbn [step fst snd]. split; [| constructor].
    destruct Hwf as [Hus _].
    apply extiHandler_reading_invariant; try assumption.
    intros ->. exact Hfit.
  - rewrite step_get_distance. cbn [fst snd].
    destruct (get_distance_reading t s Hinv) as [Hret Hinv'].
    split; [exact Hinv' | constructor; [exact Hret | constructor]].
Qed.

(** Along any sequence of calls whose echo pulses are shorter than [2^31]
    microseconds, every value a read returns is a centimetre value in
    [[0, 400]] or one of the two sentinels. *)
Lemma readings_are_distance_readings (inverted : bool) (tr : list call) (s : driver) :
  reading_invariant s ->
  Forall wf_call tr ->
  pulses_fit_timeDelta inverted tr s ->
  Forall is_distance_reading (snd (run inverted tr s)).
Proof.
  intros Hinv Hwf Hfit.
  apply (run_keeps inverted reading_invariant is_distance_reading
           (fun c s => wf_call c /\ pulse_fits c s)
           (step_keeps_reading_invariant inverted) tr s Hinv).
  apply along_conj; [apply along_Forall; exact Hwf | exact Hfit].
Qed.

Lemma boot_reading_invariant : reading_invariant driver_at_boot.
Proof.
  unfold reading_invariant, is_u32, u32_modulus. cbn.
  repeat split; try lia. apply sentinels_are_readings.
Qed.

(** C8, on the failing input.  From boot, a falling edge handled at
    [micros() = 3000000000] with no rising edge before it, followed by a
    read: the value returned is [-21948598], which is neither a centimetre
    value in [[0, 400]] nor a sentinel. *)
Theorem run_returns_negative_distance :
  let tr := [EchoEdge false 3000000000 3000000; GetDistance 3000001] in
  Forall wf_call tr /\
  snd (run false tr driver_at_boot) = [-21948598] /\
  ~ is_distance_reading (-21948598).
Proof.
  cbv zeta. split; [| split].
  - repeat constructor; unfold is_u32, u32_modulus; lia.
  - reflexivity.
  - unfold is_distance_reading, in_range_cm, is_sentinel,
      RANGEFINDER_OUT_OF_RANGE, RANGEFINDER_HARDWARE_FAILURE, HCSR04_MAX_RANGE_CM.
    lia.
Qed.

(** ** C9: [hcsr04_init] and the state at boot *)

(** Without a response no read finds one later than the request: it returns
    the cached sentinel or the failure sentinel. *)
Lemma get_distance_unmeasured (now : Z) (s : driver) :
  unmeasured s ->
  is_sentinel (fst (hcsr04_get_distance now s)) /\
  unmeasured (snd (hcsr04_get_distance now s)).
Proof.
  intros (Hrecv & Hstart & Hcache).
  assert (Hstale : response_after_request s = false)
    by (apply response_after_request_false; lia).
  assert (Hret : is_sentinel (fst (hcsr04_get_distance now s))).
  { window_cases now s.
    - rewrite get_distance_scenario2 by assumption. exact Hcache.
    - rewrite get_distance_scenario3 by assumption. right. reflexivity. }
  split; [exact Hret |].
  destruct (get_distance_frame now s) as (_ & Hr & Hst & _).
  unfold unmeasured. rewrite Hr, Hst, <- get_distance_returns_static. auto.
Qed.

Lemma step_keeps_unmeasured (inverted : bool) (c : call) (s : driver) :
  unmeasured s ->
  wf_call c /\ publishes c s = false ->
  unmeasured (fst (step inverted c s)) /\
  Forall is_sentinel (snd (step inverted c s)).
Proof.
  intros Hun [Hwf Hpub].
  destruct c as [| t | echo us ms | t].
  - cbn. split; [exact Hun | constructor].
  - cbn [step fst snd]. split; [| constructor].
    destruct Hun as (Hrecv & Hstart & Hcache).
    destruct (start_reading_frame inverted t s) as (_ & Hr & _ & Hca).
    unfold unmeasured. rewrite Hr, Hca. repeat split; try assumption.
    unfold hcsr04_start_reading. destruct (_ >? _); cbn; [| exact Hstart].
    cbn in Hwf. unfold is_u32 in Hwf. lia.
  - cbn [step fst snd]. split; [| constructor].
    destruct echo; cbn in Hpub.
    + rewrite extiHandler_rising_edge. exact Hun.
    + unfold hcsr04_extiHandler. cbv zeta. rewrite Hpub. exact Hun.
  - rewrite step_get_distance. cbn [fst snd].
    destruct (get_distance_unmeasured t s Hun) as [Hret Hun'].
    split; [exact Hun' | constructor; [exact Hret | constructor]].
Qed.

(** Before any measurement is stored, every read returns a sentinel. *)
Lemma no_measurement_reads_sentinels (inverted : bool) (tr : list call) (s : driver) :
  unmeasured s ->
  Forall wf_call tr ->
  no_measurement inverted tr s ->
  Forall is_sentinel (snd (run inverted tr s)).
Proof.
  intros Hun Hwf Hno.
  apply (run_keeps inverted unmeasured is_sentinel
           (fun c s => wf_call c /\ publishes c s = false)
           (step_keeps_unmeasured inverted) tr s Hun).
  apply along_conj; [apply along_Forall; exact Hwf | exact Hno].
Qed.

(** C9. [hcsr04_init] changes no state.  At boot the trigger time stamp, the
    response time stamp and the travel time are zero and the cached distance
    is a sentinel ([RANGEFINDER_OUT_OF_RANGE]); a read in that state returns
    a sentinel, never a distance in range, and so does every read of a
    sequence of calls in which no measurement is stored. *)
Theorem init_noop_and_boot_reads_sentinel :
  (forall s, hcsr04_init s = s) /\
  lastMeasurementStartedAt driver_at_boot = 0 /\
  lastMeasurementReceivedAt driver_at_boot = 0 /\
  hcsr04SonarPulseTravelTime driver_at_boot = 0 /\
  lastCalculatedDistance driver_at_boot = RANGEFINDER_OUT_OF_RANGE /\
  (forall now,
     is_sentinel (fst (hcsr04_get_distance now driver_at_boot)) /\
     ~ in_range_cm (fst (hcsr04_get_distance now driver_at_boot))) /\
  (forall inverted tr,
     Forall wf_call tr ->
     no_measurement inverted tr driver_at_boot ->
     Forall (fun d => is_sentinel d /\ ~ in_range_cm d)
            (snd (run inverted tr driver_at_boot))).
Proof.
  assert (Hboot : forall inverted tr,
            Forall wf_call tr ->
            no_measurement inverted tr driver_at_boot ->
            Forall is_sentinel (snd (run inverted tr driver_at_boot))).
  { intros inverted tr Hwf Hno.
    apply no_measurement_reads_sentinels; try assumption.
    repeat split; cbn; try lia. left. reflexivity. }
  assert (Hread : forall now,
            is_sentinel (fst (hcsr04_get_distance now driver_at_boot))).
  { intros now.
    assert (Hstale : response_after_request driver_at_boot = false) by reflexivity.
    window_cases now driver_at_boot.
    - rewrite get_distance_scenario2 by assumption. left. reflexivity.
    - rewrite get_distance_scenario3 by assumption. right. reflexivity. }
  split; [reflexivity |].
  do 4 (split; [reflexivity |]).
  split.
  - intros now. split; [apply Hread | apply sentinels_not_in_range, Hread].
  - intros inverted tr Hwf Hno.
    eapply Forall_impl; [| apply (Hboot inverted tr Hwf Hno)].
    intros d Hd. split; [exact Hd | apply sentinels_not_in_range; exact Hd].
Qed.

(** From boot: a read, a trigger, a rising edge and two more reads, the last
    one more than 60 ms after the trigger. *)
Lemma init_noop_and_boot_reads_sentinel_witness :
  let tr := [Init; GetDistance 10; StartReading 100; EchoEdge true 100500 100;
             GetDistance 130; GetDistance 200] in
  Forall wf_call tr /\
  no_measurement false tr driver_at_boot /\
  snd (run false tr driver_at_boot)
  = [RANGEFINDER_OUT_OF_RANGE; RANGEFINDER_OUT_OF_RANGE; RANGEFINDER_HARDWARE_FAILURE] /\
  Forall (fun d => is_sentinel d /\ ~ in_range_cm d)
         (snd (run false tr driver_at_boot)).
Proof.
  cbv zeta.
  assert (Hwf : Forall wf_call
                  [Init; GetDistance 10; StartReading 100; EchoEdge true 100500 100;
                   GetDistance 130; GetDistance 200]).
  { repeat constructor; unfold is_u32, u32_modulus; lia. }
  assert (Hno : no_measurement false
                  [Init; GetDistance 10; StartReading 100; EchoEdge true 100500 100;
                   GetDistance 130; GetDistance 200] driver_at_boot).
  { cbn. repeat split. }
  split; [exact Hwf |]. split; [exact Hno |]. split; [reflexivity |].
  exact (proj2 (proj2 (proj2 (proj2 (proj2 (proj2
           init_noop_and_boot_reads_sentinel))))) false _ Hwf Hno).
Defined.

(** ** C10: the value returned and the value cached *)

(** C10. After every call of [hcsr04_get_distance] the static
    [lastCalculatedDistance] holds the value the call returned, and a second
    call at the same time on the state the first one left returns the same
    value and leaves that state as it is. *)
Theorem get_distance_idempotent (now : Z) (s : driver) :
  let d := fst (hcsr04_get_distance now s) in
  let s' := snd (hcsr04_get_distance now s) in
  lastCalculatedDistance s' = d /\
  hcsr04_get_distance now s' = (d, s').
Proof.
  cbv zeta. split; [reflexivity |].
  destruct (response_after_request s) eqn:Hfresh.
  - rewrite (get_distance_scenario1 now s Hfresh). cbv zeta.
    destruct (Z.quot (hcsr04SonarPulseTravelTime s) 59 >? HCSR04_MAX_RANGE_CM) eqn:Hmax;
      cbn [fst snd];
      rewrite get_distance_scenario1 by exact Hfresh;
      cbv zeta; cbn [hcsr04SonarPulseTravelTime set_lastCalculatedDistance];
      rewrite Hmax; reflexivity.
  - window_cases now s.
    + rewrite (get_distance_scenario2 now s Hfresh Hwin). cbn [fst snd].
      apply get_distance_scenario2; assumption.
    + rewrite (get_distance_scenario3 now s Hfresh Hout). cbn [fst snd].
      rewrite get_distance_scenario3 by assumption. reflexivity.
Qed.

(** ** C7: reader preempted by the echo handler *)

Section PreemptedReader.

Import Preemption.

(** The handler and the reader's store commute: they write different
    statics. *)
Lemma handle_set_lastCalculatedDistance (v : Z) (e : irq) (s : driver) :
  handle (set_lastCalculatedDistance v s) e = set_lastCalculatedDistance v (handle s e).
Proof.
  destruct e as [[echo us] ms]. unfold handle, hcsr04_extiHandler.
  destruct echo; cbn; [reflexivity |].
  destruct (us >? timing_start s); reflexivity.
Qed.

Lemma run_irqs_cons (e : irq) (irqs : list irq) (s : driver) :
  run_irqs (e :: irqs) s = run_irqs irqs (handle s e).
Proof. reflexivity. Qed.

Lemma run_irqs_set_lastCalculatedDistance (v : Z) (irqs : list irq) :
  forall s,
    run_irqs irqs (set_lastCalculatedDistance v s)
    = set_lastCalculatedDistance v (run_irqs irqs s).
Proof.
  induction irqs as [| e irqs IH]; intros s.
  - reflexivity.
  - rewrite !run_irqs_cons, handle_set_lastCalculatedDistance. apply IH.
Qed.

Lemma run_irqs_frame (irqs : list irq) :
  forall s,
    lastMeasurementStartedAt (run_irqs irqs s) = lastMeasurementStartedAt s /\
    lastCalculatedDistance (run_irqs irqs s) = lastCalculatedDistance s.
Proof.
  induction irqs as [| e irqs IH]; intros s.
  - split; reflexivity.
  - rewrite run_irqs_cons.
    destruct (IH (handle s e)) as [H1 H2]. rewrite H1, H2.
    destruct e as [[echo us] ms]. apply extiHandler_frame.
Qed.

(** The last pair that stood in memory is the pair of the final state. *)
Lemma snapshots_last (irqs : list irq) :
  forall s d, last (snapshots irqs s) d = published_pair (run_irqs irqs s).
Proof.
  induction irqs as [| e irqs IH]; intros s d.
  - reflexivity.
  - rewrite run_irqs_cons, <- (IH (handle s e) d).
    cbn [snapshots]. destruct irqs; reflexivity.
Qed.

(** When the reader found no fresh measurement, a preempted call is the
    plain call followed by the handlers. *)
Lemma preempted_stale (now : Z) (irqs : list irq) (s : driver) :
  response_after_request s = false ->
  hcsr04_get_distance_preempted now irqs s
  = (fst (hcsr04_get_distance now s),
     run_irqs irqs (snd (hcsr04_get_distance now s))).
Proof.
  intros Hstale.
  unfold hcsr04_get_distance_preempted, hcsr04_get_distance. rewrite Hstale.
  cbn [fst snd]. unfold get_distance_body.
  destruct (run_irqs_frame irqs s) as [Hst Hca]. rewrite Hst.
  destruct (_ >? _).
  - rewrite run_irqs_set_lastCalculatedDistance. reflexivity.
  - rewrite Hca. reflexivity.
Qed.

(** When the reader found a fresh measurement and the handlers leave a
    fresh one, a preempted call is the plain call after the handlers. *)
Lemma preempted_fresh (now : Z) (irqs : list irq) (s : driver) :
  response_after_request s = true ->
  response_after_request (run_irqs irqs s) = true ->
  hcsr04_get_distance_preempted now irqs s
  = hcsr04_get_distance now (run_irqs irqs s).
Proof.
  intros Hfresh Hfresh'.
  unfold hcsr04_get_distance_preempted, hcsr04_get_distance.
  rewrite Hfresh, Hfresh'. reflexivity.
Qed.

End PreemptedReader.

(** C7, as stated, fails: the handler writes the two statics one by one and
    the reader loads them one by one.  A reader that has loaded the receipt
    time stamp 10 of a 290 microsecond pulse, and is then preempted by the
    two edges of a 1180 microsecond pulse received at 71 ms, loads the
    travel time 1180: the pair (10, 1180) never stood in memory.  The call
    returns 20 cm. *)
Lemma get_distance_torn_pair_counterexample :
  let s := mkDriver 290 10 5 5000 4 in
  let irqs := [(true, 70000, 70); (false, 71180, 71)] in
  Preemption.snapshots irqs s = [(10, 290); (10, 290); (71, 1180)] /\
  Preemption.observed_pair irqs s = (10, 1180) /\
  ~ In (Preemption.observed_pair irqs s) (Preemption.snapshots irqs s) /\
  fst (Preemption.hcsr04_get_distance_preempted 72 irqs s) = 20.
Proof.
  cbv zeta. split; [reflexivity |]. split; [reflexivity |].
  split; [| reflexivity].
  cbn. intros [H | [H | [H | []]]]; discriminate.
Qed.

(** C7, amended.  The two statics are not one atomic snapshot.  A reader
    that is not preempted between its two loads is the plain
    [hcsr04_get_distance].  A reader preempted there loads the receipt time
    stamp of the first pair and the travel time of the last pair that stood
    in memory, never the other way round.  What it returns is still what a
    call that is not preempted returns before the handlers, when it found
    no fresh measurement, or after them, when it found one and the
    handlers leave a fresh one. *)
Theorem get_distance_preempted_serialises (now : Z) (irqs : list Preemption.irq) (s : driver) :
  Preemption.hcsr04_get_distance_preempted now [] s = hcsr04_get_distance now s /\
  Preemption.observed_pair irqs s
  = (fst (hd (0, 0) (Preemption.snapshots irqs s)),
     snd (last (Preemption.snapshots irqs s) (0, 0))) /\
  (response_after_request s = false ->
   Preemption.hcsr04_get_distance_preempted now irqs s
   = (fst (hcsr04_get_distance now s),
      Preemption.run_irqs irqs (snd (hcsr04_get_distance now s)))) /\
  (response_after_request s = true ->
   response_after_request (Preemption.run_irqs irqs s) = true ->
   Preemption.hcsr04_get_distance_preempted now irqs s
   = hcsr04_get_distance now (Preemption.run_irqs irqs s)).
Proof.
  split; [reflexivity |]. split.
  - rewrite snapshots_last. destruct irqs; reflexivity.
  - split; [apply preempted_stale | apply preempted_fresh].
Qed.

(** The interleaving of the counterexample: the reader finds the old
    measurement fresh, the new one is fresh as well, and the preempted call
    returns the 20 cm a call after the handlers returns. *)
Lemma get_distance_preempted_serialises_witness :
  let s := mkDriver 290 10 5 5000 4 in
  let irqs := [(true, 70000, 70); (false, 71180, 71)] in
  response_after_request s = true /\
  response_after_request (Preemption.run_irqs irqs s) = true /\
  Preemption.hcsr04_get_distance_preempted 72 irqs s
  = hcsr04_get_distance 72 (Preemption.run_irqs irqs s) /\
  fst (hcsr04_get_distance 72 (Preemption.run_irqs irqs s)) = 20.
Proof.
  cbv zeta. split; [reflexivity |]. split; [reflexivity |].
  split; [| reflexivity].
  apply (proj2 (proj2 (proj2
           (get_distance_preempted_serialises 72
              [(true, 70000, 70); (false, 71180, 71)]
              (mkDriver 290 10 5 5000 4))))); reflexivity.
Defined.

(** * Further properties of the measurement cycle *)

(** ** Echo capture at its edges *)

(** X1. An echo pulse that straddles the wrap-around of the microsecond
    counter is lost: with the rising edge at [us0] and the falling edge [w]
    microseconds later, after the counter has wrapped, the handler's guard
    [timing_stop > timing_start] fails and neither the travel time nor the
    receipt time stamp is written. *)
Theorem extiHandler_drops_pulse_across_wrap (us0 w ms0 ms : Z) (s : driver) :
  is_u32 us0 ->
  0 < w < u32_modulus ->
  u32_modulus <= us0 + w ->
  hcsr04_extiHandler false (u32 (us0 + w)) ms (hcsr04_extiHandler true us0 ms0 s)
  = set_timing_start us0 s.
Proof.
  intros Hus0 Hw Hwrap.
  rewrite extiHandler_rising_edge.
  apply extiHandler_discards. cbn [timing_start set_timing_start].
  rewrite u32_add_wrap; unfold is_u32 in *; lia.
Qed.

(** A rising edge 100 microseconds before the wrap, a falling edge 200
    microseconds after it: the 4 cm measurement of the state stays. *)
Lemma extiHandler_drops_pulse_across_wrap_witness :
  let s := mkDriver 290 6 0 5000 4 in
  is_u32 4294967196 /\
  0 < 300 < u32_modulus /\
  u32_modulus <= 4294967196 + 300 /\
  u32 (4294967196 + 300) = 200 /\
  hcsr04_extiHandler false 200 7000 (hcsr04_extiHandler true 4294967196 7000 s)
  = mkDriver 290 6 0 4294967196 4.
Proof.
  cbv zeta.
  assert (H1 : is_u32 4294967196) by (unfold is_u32, u32_modulus; lia).
  assert (H2 : 0 < 300 < u32_modulus) by (unfold u32_modulus; lia).
  assert (H3 : u32_modulus <= 4294967196 + 300) by (unfold u32_modulus; lia).
  split; [exact H1 |]. split; [exact H2 |]. split; [exact H3 |].
  split; [reflexivity |].
  exact (extiHandler_drops_pulse_across_wrap 4294967196 300 7000 7000
           (mkDriver 290 6 0 5000 4) H1 H2 H3).
Defined.

(** X2. The handler keeps no record of which edge came last.  A second
    rising edge replaces the pending time stamp, so only the last rising
    edge counts; a falling edge does not clear it, so a second falling edge
    that passes the guard is measured from the same rising edge and replaces
    the measurement of the first. *)
Theorem extiHandler_last_edges_win (us1 ms1 us2 ms2 : Z) (s : driver) :
  us2 > timing_start s ->
  hcsr04_extiHandler true us2 ms2 (hcsr04_extiHandler true us1 ms1 s)
  = hcsr04_extiHandler true us2 ms2 s /\
  timing_start (hcsr04_extiHandler false us1 ms1 s) = timing_start s /\
  hcsr04_extiHandler false us2 ms2 (hcsr04_extiHandler false us1 ms1 s)
  = hcsr04_extiHandler false us2 ms2 s.
Proof.
  intros Hgt. split; [reflexivity |].
  assert (Hstart : timing_start (hcsr04_extiHandler false us1 ms1 s) = timing_start s).
  { unfold hcsr04_extiHandler. destruct (us1 >? timing_start s); reflexivity. }
  split; [exact Hstart |].
  rewrite (extiHandler_publishes us2 ms2 s Hgt).
  rewrite extiHandler_publishes by (rewrite Hstart; exact Hgt).
  rewrite Hstart.
  unfold hcsr04_extiHandler. destruct (us1 >? timing_start s); reflexivity.
Qed.

(** Rising edge at 5000, falling edges at 5290 and at 6180 microseconds:
    the second falling edge leaves a travel time of 1180 microseconds. *)
Lemma extiHandler_last_edges_win_witness :
  let s := hcsr04_extiHandler true 5000 5 driver_at_boot in
  6180 > timing_start s /\
  hcsr04_extiHandler false 6180 7 (hcsr04_extiHandler false 5290 6 s)
  = hcsr04_extiHandler false 6180 7 s /\
  hcsr04SonarPulseTravelTime
    (hcsr04_extiHandler false 6180 7 (hcsr04_extiHandler false 5290 6 s)) = 1180.
Proof.
  cbv zeta.
  assert (H : 6180 > timing_start (hcsr04_extiHandler true 5000 5 driver_at_boot))
    by (simpl; lia).
  split; [exact H |].
  split; [| reflexivity].
  exact (proj2 (proj2 (extiHandler_last_edges_win 5290 6 6180 7
                         (hcsr04_extiHandler true 5000 5 driver_at_boot) H))).
Defined.

(** ** The trigger over a sequence of calls *)

Lemma start_reading_started_at (inverted : bool) (now : Z) (s : driver) :
  let r := hcsr04_start_reading inverted now s in
  (snd r = [] /\ fst r = s) \/
  (snd r = trigger_pulse inverted /\
   now > u32 (lastMeasurementStartedAt s + HCSR04_MinimumFiringIntervalMs) /\
   lastMeasurementStartedAt (fst r) = now).
Proof.
  cbv zeta. unfold hcsr04_start_reading.
  destruct (Z.gtb_spec now
              (u32 (lastMeasurementStartedAt s + HCSR04_MinimumFiringIntervalMs))).
  - right. cbn. repeat split. lia.
  - left. split; reflexivity.
Qed.

Lemma trigger_pulse_not_nil (inverted : bool) : trigger_pulse inverted <> [].
Proof. destruct inverted; discriminate. Qed.

(** X3. As long as no sum [lastMeasurementStartedAt + 60] overflows, any two
    consecutive trigger pulses of a sequence of calls, whatever the calls and
    their order in time, are more than 60 ms apart, and the first one comes
    more than 60 ms after the trigger time the sequence started from. *)
Theorem firings_are_spaced (inverted : bool) (tr : list call) :
  forall s,
    0 <= lastMeasurementStartedAt s ->
    lastMeasurementStartedAt s + HCSR04_MinimumFiringIntervalMs < u32_modulus ->
    Forall wf_call tr ->
    Forall sum_fits tr ->
    spaced (lastMeasurementStartedAt s) (firings inverted tr s).
Proof.
  induction tr as [| c tr IH]; intros s Hpos Hfit Hwf Hsum.
  - exact I.
  - inversion Hwf as [| c' tr' Hc Htr]; subst.
    inversion Hsum as [| c' tr' Hsc Hstr]; subst.
    cbn [firings].
    destruct c as [| now | echo us ms | now].
    + cbn. apply IH; assumption.
    + cbn [step fst app].
      destruct (start_reading_started_at inverted now s) as [[Hio Hs] | (Hio & Hgt & Hnow)].
      * rewrite Hio, Hs. cbn. apply IH; assumption.
      * rewrite Hio.
        destruct (trigger_pulse inverted) as [| e l] eqn:Hp;
          [exfalso; exact (trigger_pulse_not_nil inverted Hp) |].
        cbn [app spaced]. rewrite u32_add_no_wrap in Hgt
          by (unfold HCSR04_MinimumFiringIntervalMs in *; lia).
        split; [lia |].
        rewrite <- Hnow at 1. apply IH; try assumption.
        -- rewrite Hnow. cbn in Hc. unfold is_u32 in Hc. lia.
        -- rewrite Hnow. exact Hsc.
    + cbn [step fst app].
      destruct (extiHandler_frame echo us ms s) as [Hst _].
      rewrite <- Hst. apply IH; try assumption; rewrite Hst; assumption.
    + rewrite step_get_distance. cbn [fst app].
      destruct (get_distance_frame now s) as (_ & _ & Hst & _).
      rewrite <- Hst. apply IH; try assumption; rewrite Hst; assumption.
Qed.

(** Calls at 100, 130, 161 and 200 ms from boot, with a read in between:
    the pin is driven at 100 and at 161 ms. *)
Lemma firings_are_spaced_witness :
  let tr := [StartReading 100; StartReading 130; GetDistance 140;
             StartReading 161; StartReading 200] in
  Forall wf_call tr /\
  Forall sum_fits tr /\
  firings false tr driver_at_boot = [100; 161] /\
  spaced 0 (firings false tr driver_at_boot).
Proof.
  cbv zeta.
  assert (Hwf : Forall wf_call [StartReading 100; StartReading 130; GetDistance 140;
                                StartReading 161; StartReading 200])
    by (repeat constructor; unfold is_u32, u32_modulus; lia).
  assert (Hsum : Forall sum_fits [StartReading 100; StartReading 130; GetDistance 140;
                                  StartReading 161; StartReading 200])
    by (repeat constructor; unfold u32_modulus, HCSR04_MinimumFiringIntervalMs; lia).
  split; [exact Hwf |]. split; [exact Hsum |]. split; [reflexivity |].
  apply (firings_are_spaced false _ driver_at_boot); try assumption.
  - simpl; lia.
  - unfold HCSR04_MinimumFiringIntervalMs, u32_modulus; simpl; lia.
Defined.

(** X4. When the last trigger fired within the last 60 ms before the top of
    the millisecond counter, the sum [lastMeasurementStartedAt + 60] wraps
    and the rate limit is void until the counter wraps too: every call at a
    later time, up to the top of the counter, drives the pin again. *)
Theorem start_reading_unlimited_below_wrap (inverted : bool) (now : Z) (s : driver) :
  is_u32 now ->
  u32_modulus - HCSR04_MinimumFiringIntervalMs <= lastMeasurementStartedAt s ->
  lastMeasurementStartedAt s < now ->
  hcsr04_start_reading inverted now s
  = (set_lastMeasurementStartedAt now s, trigger_pulse inverted).
Proof.
  unfold is_u32, HCSR04_MinimumFiringIntervalMs. intros Hnow Htop Hlater.
  apply start_reading_fires.
  unfold HCSR04_MinimumFiringIntervalMs.
  rewrite u32_add_wrap; unfold is_u32, u32_modulus in *; lia.
Qed.

(** Last trigger 30 ms below the top of the counter, next call 1 ms later. *)
Lemma start_reading_unlimited_below_wrap_witness :
  let s := mkDriver 0 0 4294967266 0 RANGEFINDER_OUT_OF_RANGE in
  is_u32 4294967267 /\
  u32_modulus - HCSR04_MinimumFiringIntervalMs <= lastMeasurementStartedAt s /\
  lastMeasurementStartedAt s < 4294967267 /\
  hcsr04_start_reading false 4294967267 s
  = (set_lastMeasurementStartedAt 4294967267 s, trigger_pulse false).
Proof.
  cbv zeta.
  assert (H1 : is_u32 4294967267) by (unfold is_u32, u32_modulus; lia).
  split; [exact H1 |].
  split; [unfold u32_modulus, HCSR04_MinimumFiringIntervalMs; simpl; lia |].
  split; [simpl; lia |].
  apply (start_reading_unlimited_below_wrap false 4294967267
           (mkDriver 0 0 4294967266 0 RANGEFINDER_OUT_OF_RANGE) H1).
  - unfold u32_modulus, HCSR04_MinimumFiringIntervalMs; simpl; lia.
  - simpl; lia.
Defined.

(** ** The reader over a sequence of calls *)

Lemma along_True (inverted : bool) (tr : list call) :
  forall s, along inverted (fun _ _ => True) tr s.
Proof. induction tr as [| c tr IH]; intros s; cbn; auto. Qed.

Lemma get_distance_scenario1_value (now : Z) (s : driver) :
  response_after_request s = true ->
  fst (hcsr04_get_distance now s)
  = distance_of_travel_time (hcsr04SonarPulseTravelTime s).
Proof.
  intros Hfresh. rewrite get_distance_scenario1 by exact Hfresh.
  cbv zeta. unfold distance_of_travel_time.
  destruct (_ >? _); reflexivity.
Qed.

(** X5. A fresh measurement does not age: as long as no trigger fires and no
    edge is handled, reads at any times, however late, all return the value
    computed from the stored travel time; the 60 ms limit does not apply. *)
Theorem fresh_reading_does_not_age (inverted : bool) (times : list Z) :
  forall s,
    lastMeasurementReceivedAt s > lastMeasurementStartedAt s ->
    Forall (fun d => d = distance_of_travel_time (hcsr04SonarPulseTravelTime s))
           (snd (run inverted (map GetDistance times) s)).
Proof.
  induction times as [| t times IH]; intros s Hfresh.
  - constructor.
  - cbn [map run]. rewrite step_get_distance.
    destruct (get_distance_frame t s) as (HT & Hr & Hst & _).
    specialize (IH (snd (hcsr04_get_distance t s))).
    rewrite HT, Hr, Hst in IH. specialize (IH Hfresh).
    destruct (run inverted (map GetDistance times) (snd (hcsr04_get_distance t s)))
      as [s2 r2].
    cbn [snd app] in *. constructor; [| exact IH].
    apply get_distance_scenario1_value, response_after_request_true, Hfresh.
Qed.

(** A 290 microsecond pulse received at 6 ms, read at 7 ms, after a minute
    and after an hour. *)
Lemma fresh_reading_does_not_age_witness :
  let s := mkDriver 290 6 0 5000 RANGEFINDER_OUT_OF_RANGE in
  lastMeasurementReceivedAt s > lastMeasurementStartedAt s /\
  snd (run false (map GetDistance [7; 60000; 3600000]) s) = [4; 4; 4] /\
  Forall (fun d => d = 4) (snd (run false (map GetDistance [7; 60000; 3600000]) s)).
Proof.
  cbv zeta.
  assert (H : lastMeasurementReceivedAt (mkDriver 290 6 0 5000 RANGEFINDER_OUT_OF_RANGE)
              > lastMeasurementStartedAt (mkDriver 290 6 0 5000 RANGEFINDER_OUT_OF_RANGE))
    by (simpl; lia).
  split; [exact H |]. split; [reflexivity |].
  exact (fresh_reading_does_not_age false [7; 60000; 3600000]
           (mkDriver 290 6 0 5000 RANGEFINDER_OUT_OF_RANGE) H).
Defined.

Lemma step_keeps_max_range (inverted : bool) (c : call) (s : driver) :
  lastCalculatedDistance s <= HCSR04_MAX_RANGE_CM ->
  True ->
  lastCalculatedDistance (fst (step inverted c s)) <= HCSR04_MAX_RANGE_CM /\
  Forall (fun d => d <= HCSR04_MAX_RANGE_CM) (snd (step inverted c s)).
Proof.
  intros Hle _.
  destruct c as [| t | echo us ms | t].
  - cbn. split; [exact Hle | constructor].
  - cbn [step fst snd]. split; [| constructor].
    destruct (start_reading_frame inverted t s) as (_ & _ & _ & Hca).
    rewrite Hca. exact Hle.
  - cbn [step fst snd]. split; [| constructor].
    destruct (extiHandler_frame echo us ms s) as [_ Hca].
    rewrite Hca. exact Hle.
  - rewrite step_get_distance. cbn [fst snd].
    assert (Hret : fst (hcsr04_get_distance t s) <= HCSR04_MAX_RANGE_CM).
    { destruct (response_after_request s) eqn:Hfresh.
      - rewrite get_distance_scenario1_value by exact Hfresh.
        unfold distance_of_travel_time.
        destruct (Z.gtb_spec (Z.quot (hcsr04SonarPulseTravelTime s) 59)
                             HCSR04_MAX_RANGE_CM);
          [unfold RANGEFINDER_OUT_OF_RANGE, HCSR04_MAX_RANGE_CM | ]; lia.
      - window_cases t s.
        + rewrite get_distance_scenario2 by assumption. exact Hle.
        + rewrite get_distance_scenario3 by assumption.
          unfold RANGEFINDER_HARDWARE_FAILURE, HCSR04_MAX_RANGE_CM. cbn. lia. }
    split; [| constructor; [exact Hret | constructor]].
    rewrite <- get_distance_returns_static. exact Hret.
Qed.

(** X6. No read ever returns more than [HCSR04_MAX_RANGE_CM]: from a state
    whose cached distance is at most 400, along any sequence of calls with
    any time stamps and any edges, every value returned is at most 400. *)
Theorem readings_never_exceed_max_range (inverted : bool) (tr : list call) (s : driver) :
  lastCalculatedDistance s <= HCSR04_MAX_RANGE_CM ->
  Forall (fun d => d <= HCSR04_MAX_RANGE_CM) (snd (run inverted tr s)).
Proof.
  intros Hle.
  apply (run_keeps inverted
           (fun s => lastCalculatedDistance s <= HCSR04_MAX_RANGE_CM)
           (fun d => d <= HCSR04_MAX_RANGE_CM)
           (fun _ _ => True) (step_keeps_max_range inverted) tr s Hle).
  apply along_True.
Qed.

(** From boot: a pulse of 3 000 000 000 microseconds, one of 59 000
    microseconds, and three reads. *)
Lemma readings_never_exceed_max_range_witness :
  let tr := [EchoEdge false 3000000000 3000000; GetDistance 3000001;
             EchoEdge true 3000100000 3000100; EchoEdge false 3000159000 3000159;
             GetDistance 3000160; StartReading 3000200; GetDistance 3000300] in
  lastCalculatedDistance driver_at_boot <= HCSR04_MAX_RANGE_CM /\
  snd (run false tr driver_at_boot)
  = [-21948598; RANGEFINDER_OUT_OF_RANGE; RANGEFINDER_HARDWARE_FAILURE] /\
  Forall (fun d => d <= HCSR04_MAX_RANGE_CM) (snd (run false tr driver_at_boot)).
Proof.
  cbv zeta.
  assert (H : lastCalculatedDistance driver_at_boot <= HCSR04_MAX_RANGE_CM)
    by (vm_compute; discriminate).
  split; [exact H |]. split; [reflexivity |].
  exact (readings_never_exceed_max_range false _ driver_at_boot H).
Defined.

(** ** The statics stay within their C types *)

Lemma quot_59_is_s32 (t : Z) : is_s32 t -> is_s32 (Z.quot t 59).
Proof.
  unfold is_s32, s32_half. intros [Hlo Hhi].
  destruct (Z_le_gt_dec 0 t) as [Hpos | Hneg].
  - assert (0 <= Z.quot t 59) by (apply Z.quot_pos; lia).
    assert (Z.quot t 59 <= t) by (apply Z.quot_le_upper_bound; lia).
    lia.
  - assert (Hopp : Z.quot (- t) 59 = - Z.quot t 59) by (apply Z.quot_opp_l; lia).
    assert (0 <= Z.quot (- t) 59) by (apply Z.quot_pos; lia).
    assert (Z.quot (- t) 59 <= - t) by (apply Z.quot_le_upper_bound; lia).
    lia.
Qed.

Lemma sentinels_are_s32 :
  is_s32 RANGEFINDER_OUT_OF_RANGE /\ is_s32 RANGEFINDER_HARDWARE_FAILURE.
Proof.
  unfold is_s32, s32_half, RANGEFINDER_OUT_OF_RANGE, RANGEFINDER_HARDWARE_FAILURE. lia.
Qed.

Lemma step_keeps_types (inverted : bool) (c : call) (s : driver) :
  wf_driver s ->
  wf_call c ->
  wf_driver (fst (step inverted c s)) /\ Forall is_s32 (snd (step inverted c s)).
Proof.
  intros (HT & Hr & Hst & Hts & Hca) Hwf.
  destruct c as [| t | echo us ms | t].
  - cbn. split; [unfold wf_driver; auto | constructor].
  - cbn [step fst snd]. split; [| constructor].
    unfold hcsr04_start_reading. destruct (_ >? _); cbn [fst]; unfold wf_driver; cbn; auto.
  - cbn [step fst snd]. split; [| constructor].
    destruct Hwf as [Hus Hms].
    unfold hcsr04_extiHandler. destruct echo; [unfold wf_driver; cbn; auto |].
    cbv zeta. destruct (_ >? _); unfold wf_driver; cbn; auto.
    repeat split; try apply Hr; try apply Hst; try apply Hts; try apply Hca;
      try apply Hms; apply s32_range.
  - rewrite step_get_distance. cbn [fst snd].
    assert (Hret : is_s32 (fst (hcsr04_get_distance t s))).
    { destruct (response_after_request s) eqn:Hfresh.
      - rewrite get_distance_scenario1_value by exact Hfresh.
        unfold distance_of_travel_time. destruct (_ >? _).
        + apply sentinels_are_s32.
        + apply quot_59_is_s32. exact HT.
      - window_cases t s.
        + rewrite get_distance_scenario2 by assumption. exact Hca.
        + rewrite get_distance_scenario3 by assumption. apply sentinels_are_s32. }
    split; [| constructor; [exact Hret | constructor]].
    destruct (get_distance_frame t s) as (HT' & Hr' & Hst' & Hts').
    unfold wf_driver.
    rewrite HT', Hr', Hst', Hts', <- get_distance_returns_static. auto.
Qed.

(** X7. The driver keeps its statics within their C types: from a state in
    which the travel time and the cached distance are [int32_t] values and
    the three time stamps [uint32_t] values, any sequence of calls whose
    clock readings are [uint32_t] values ends in such a state, and every
    distance returned is an [int32_t] value; in particular the quotient
    stored into [lastCalculatedDistance] never overflows. *)
Theorem run_keeps_types (inverted : bool) (tr : list call) (s : driver) :
  wf_driver s ->
  Forall wf_call tr ->
  wf_driver (fst (run inverted tr s)) /\ Forall is_s32 (snd (run inverted tr s)).
Proof.
  intros Hwf Hcalls.
  apply (run_keeps inverted wf_driver is_s32 (fun c _ => wf_call c)
           (step_keeps_types inverted) tr s Hwf).
  apply along_Forall. exact Hcalls.
Qed.

Lemma run_keeps_types_witness :
  let tr := [StartReading 100; EchoEdge true 100500 100;
             EchoEdge false 4294967295 4294967; GetDistance 4294968] in
  wf_driver driver_at_boot /\
  Forall wf_call tr /\
  wf_driver (fst (run false tr driver_at_boot)) /\
  Forall is_s32 (snd (run false tr driver_at_boot)).
Proof.
  cbv zeta.
  assert (Hwf : wf_driver driver_at_boot).
  { unfold wf_driver, is_s32, is_u32, s32_half, u32_modulus, driver_at_boot,
      RANGEFINDER_OUT_OF_RANGE. simpl. lia. }
  assert (Hcalls : Forall wf_call
                     [StartReading 100; EchoEdge true 100500 100;
                      EchoEdge false 4294967295 4294967; GetDistance 4294968]).
  { repeat constructor; unfold is_u32, u32_modulus; lia. }
  split; [exact Hwf |]. split; [exact Hcalls |].
  exact (run_keeps_types false _ driver_at_boot Hwf Hcalls).
Defined.

(** ** One measurement cycle *)

Lemma get_distance_stale_value (now : Z) (s : driver) :
  response_after_request s = false ->
  fst (hcsr04_get_distance now s)
  = if u32 (now - lastMeasurementStartedAt s) >? HCSR04_MinimumFiringIntervalMs
    then RANGEFINDER_HARDWARE_FAILURE
    else lastCalculatedDistance s.
Proof.
  intros Hstale. window_cases now s.
  - rewrite get_distance_scenario2 by assumption.
    destruct (Z.gtb_spec (u32 (now - lastMeasurementStartedAt s))
                         HCSR04_MinimumFiringIntervalMs); [lia | reflexivity].
  - rewrite get_distance_scenario3 by assumption.
    destruct (Z.gtb_spec (u32 (now - lastMeasurementStartedAt s))
                         HCSR04_MinimumFiringIntervalMs); [reflexivity | lia].
Qed.

(** X8. One whole cycle.  A trigger fires at [t0]; the echo line rises at
    [us] and falls [w] microseconds later, with [0 < w < 2^31] and no wrap of
    the microsecond counter in between; the falling edge is handled at a
    millisecond stamp above [t0].  Then a read at any time returns [w / 59]
    when that is at most 400 and [RANGEFINDER_OUT_OF_RANGE] otherwise,
    whatever the driver had measured or cached before. *)
Theorem measurement_cycle_reads_pulse_width
    (inverted : bool) (t0 us w ms_rise ms now : Z) (s : driver) :
  is_u32 us ->
  0 < w < s32_half ->
  us + w < u32_modulus ->
  t0 > u32 (lastMeasurementStartedAt s + HCSR04_MinimumFiringIntervalMs) ->
  ms > t0 ->
  let s1 := fst (hcsr04_start_reading inverted t0 s) in
  let s2 := hcsr04_extiHandler true us ms_rise s1 in
  let s3 := hcsr04_extiHandler false (us + w) ms s2 in
  fst (hcsr04_get_distance now s3)
  = if w / 59 >? HCSR04_MAX_RANGE_CM then RANGEFINDER_OUT_OF_RANGE else w / 59.
Proof.
  intros Hus Hw Hfit Hfire Hms. cbv zeta.
  rewrite (start_reading_fires inverted t0 s Hfire). cbn [fst].
  rewrite extiHandler_rising_edge.
  rewrite extiHandler_publishes_elapsed;
    cbn [timing_start set_timing_start]; unfold is_u32 in *;
    try lia.
  replace (us + w - us) with w by lia.
  rewrite get_distance_scenario1_value.
  - cbn [hcsr04SonarPulseTravelTime set_hcsr04SonarPulseTravelTime].
    unfold distance_of_travel_time.
    rewrite Z.quot_div_nonneg by lia. reflexivity.
  - apply response_after_request_true. cbn. lia.
Qed.

(** The scenario of 290 microseconds, with a trigger at 100 ms and a cached
    hardware failure before it. *)
Lemma measurement_cycle_reads_pulse_width_witness :
  let s := mkDriver 0 0 0 0 RANGEFINDER_HARDWARE_FAILURE in
  is_u32 105000 /\
  0 < 290 < s32_half /\
  105000 + 290 < u32_modulus /\
  100 > u32 (lastMeasurementStartedAt s + HCSR04_MinimumFiringIntervalMs) /\
  106 > 100 /\
  fst (hcsr04_get_distance 107
         (hcsr04_extiHandler false (105000 + 290) 106
            (hcsr04_extiHandler true 105000 105
               (fst (hcsr04_start_reading false 100 s))))) = 4.
Proof.
  cbv zeta.
  assert (H1 : is_u32 105000) by (unfold is_u32, u32_modulus; lia).
  assert (H2 : 0 < 290 < s32_half) by (unfold s32_half; lia).
  assert (H3 : 105000 + 290 < u32_modulus) by (unfold u32_modulus; lia).
  assert (H4 : 100 > u32 (lastMeasurementStartedAt
                            (mkDriver 0 0 0 0 RANGEFINDER_HARDWARE_FAILURE)
                          + HCSR04_MinimumFiringIntervalMs))
    by (vm_compute; reflexivity).
  assert (H5 : 106 > 100) by lia.
  split; [exact H1 |]. split; [exact H2 |]. split; [exact H3 |].
  split; [exact H4 |]. split; [exact H5 |].
  exact (measurement_cycle_reads_pulse_width false 100 105000 290 105 106 107
           (mkDriver 0 0 0 0 RANGEFINDER_HARDWARE_FAILURE) H1 H2 H3 H4 H5).
Defined.

(** X9. After a trigger has fired at [t0] a measurement is reported only
    when its receipt stamp is above [t0].  With nothing stamped above [t0]
    in store when the trigger fires, the measurement in store, if it was not
    read by then, is lost; so is a response handled in the millisecond of
    the trigger ([d = 0]) or handled [d] ms later when the millisecond
    counter has wrapped in between.  In each case a read returns the distance
    that was cached before the trigger while at most 60 ms have elapsed, and
    [RANGEFINDER_HARDWARE_FAILURE] after that. *)
Theorem measurement_not_after_trigger_is_not_reported
    (inverted : bool) (t0 now : Z) (s : driver) :
  is_u32 t0 ->
  t0 > u32 (lastMeasurementStartedAt s + HCSR04_MinimumFiringIntervalMs) ->
  lastMeasurementReceivedAt s <= t0 ->
  let s1 := fst (hcsr04_start_reading inverted t0 s) in
  let expected :=
    if u32 (now - t0) >? HCSR04_MinimumFiringIntervalMs
    then RANGEFINDER_HARDWARE_FAILURE
    else lastCalculatedDistance s in
  fst (hcsr04_get_distance now s1) = expected /\
  (forall us d,
     0 <= d < u32_modulus ->
     d = 0 \/ u32_modulus <= t0 + d ->
     fst (hcsr04_get_distance now (hcsr04_extiHandler false us (u32 (t0 + d)) s1))
     = expected).
Proof.
  intros Ht0 Hfire Hold. cbv zeta.
  rewrite (start_reading_fires inverted t0 s Hfire). cbn [fst].
  split.
  - rewrite get_distance_stale_value.
    + reflexivity.
    + apply response_after_request_false. cbn. exact Hold.
  - intros us d Hd Hcase.
    assert (Hstamp : u32 (t0 + d) <= t0).
    { destruct Hcase as [-> | Hwrap].
      - rewrite Z.add_0_r, u32_small by exact Ht0. lia.
      - rewrite u32_add_wrap; unfold is_u32 in *; lia. }
    destruct (extiHandler_frame false us (u32 (t0 + d))
                (set_lastMeasurementStartedAt t0 s)) as [Hst Hca].
    cbv zeta in Hst, Hca.
    rewrite get_distance_stale_value.
    + rewrite Hst, Hca. reflexivity.
    + apply response_after_request_false. rewrite Hst.
      cbn [lastMeasurementStartedAt set_lastMeasurementStartedAt].
      unfold hcsr04_extiHandler. cbv zeta.
      destruct (_ >? _); cbn; assumption.
Qed.

(** A 4 cm reading is cached; a 20 cm measurement arrives at 90 ms and is
    not read; the trigger fires at 100 ms.  The read at 130 ms returns the
    4 cm, also when a response is handled in the millisecond of the
    trigger. *)
Lemma measurement_not_after_trigger_is_not_reported_witness :
  let s := mkDriver 1180 90 20 85000 4 in
  is_u32 100 /\
  100 > u32 (lastMeasurementStartedAt s + HCSR04_MinimumFiringIntervalMs) /\
  lastMeasurementReceivedAt s <= 100 /\
  fst (hcsr04_get_distance 130 (fst (hcsr04_start_reading false 100 s))) = 4 /\
  fst (hcsr04_get_distance 130
         (hcsr04_extiHandler false 100900 (u32 (100 + 0))
            (fst (hcsr04_start_reading false 100 s)))) = 4.
Proof.
  cbv zeta.
  assert (H1 : is_u32 100) by (unfold is_u32, u32_modulus; lia).
  assert (H2 : 100 > u32 (lastMeasurementStartedAt (mkDriver 1180 90 20 85000 4)
                          + HCSR04_MinimumFiringIntervalMs))
    by (vm_compute; reflexivity).
  assert (H3 : lastMeasurementReceivedAt (mkDriver 1180 90 20 85000 4) <= 100)
    by (simpl; lia).
  pose proof (measurement_not_after_trigger_is_not_reported false 100 130
                (mkDriver 1180 90 20 85000 4) H1 H2 H3) as [Hread Hedge].
  split; [exact H1 |]. split; [exact H2 |]. split; [exact H3 |].
  split; [exact Hread |].
  apply (Hedge 100900 0); [unfold u32_modulus; lia | left; reflexivity].
Defined.

(** ** Who writes which static *)

Section Writers.

Variable inverted : bool.

Lemma step_keeps_cache (v : Z) (c : call) (s : driver) :
  lastCalculatedDistance s = v ->
  ~ is_read c ->
  lastCalculatedDistance (fst (step inverted c s)) = v /\
  Forall (fun _ => True) (snd (step inverted c s)).
Proof.
  intros Hv Hc.
  destruct c as [| t | echo us ms | t]; cbn [step fst snd].
  - split; [exact Hv | constructor].
  - split; [| constructor]. rewrite <- Hv. apply (start_reading_frame inverted t s).
  - split; [| constructor]. rewrite <- Hv. apply (extiHandler_frame echo us ms s).
  - exfalso. apply Hc. exact I.
Qed.

Lemma step_keeps_started_at (v : Z) (c : call) (s : driver) :
  lastMeasurementStartedAt s = v ->
  ~ is_trigger c ->
  lastMeasurementStartedAt (fst (step inverted c s)) = v /\
  Forall (fun _ => True) (snd (step inverted c s)).
Proof.
  intros Hv Hc.
  destruct c as [| t | echo us ms | t].
  - cbn. split; [exact Hv | constructor].
  - exfalso. apply Hc. exact I.
  - cbn [step fst snd]. split; [| constructor].
    rewrite <- Hv. apply (extiHandler_frame echo us ms s).
  - rewrite step_get_distance. cbn [fst snd].
    split; [| constructor; [exact I | constructor]].
    rewrite <- Hv. apply (get_distance_frame t s).
Qed.

Lemma step_keeps_measurement (v : Z * Z * Z) (c : call) (s : driver) :
  (hcsr04SonarPulseTravelTime s, lastMeasurementReceivedAt s, timing_start s) = v ->
  ~ is_edge c ->
  (hcsr04SonarPulseTravelTime (fst (step inverted c s)),
   lastMeasurementReceivedAt (fst (step inverted c s)),
   timing_start (fst (step inverted c s))) = v /\
  Forall (fun _ => True) (snd (step inverted c s)).
Proof.
  intros Hv Hc.
  destruct c as [| t | echo us ms | t].
  - cbn. split; [exact Hv | constructor].
  - cbn [step fst snd]. split; [| constructor].
    destruct (start_reading_frame inverted t s) as (HT & Hr & Hts & _).
    rewrite HT, Hr, Hts. exact Hv.
  - exfalso. apply Hc. exact I.
  - rewrite step_get_distance. cbn [fst snd].
    split; [| constructor; [exact I | constructor]].
    destruct (get_distance_frame t s) as (HT & Hr & _ & Hts).
    rewrite HT, Hr, Hts. exact Hv.
Qed.

End Writers.

(** X10. Each static has one writer.  Along any sequence of calls,
    [lastCalculatedDistance] is as before when the sequence has no read,
    [lastMeasurementStartedAt] is as before when it has no trigger call, and
    the travel time, the receipt stamp and the pending rising-edge stamp are
    as before when it has no echo edge. *)
Theorem statics_have_one_writer (inverted : bool) (tr : list call) (s : driver) :
  (Forall (fun c => ~ is_read c) tr ->
   lastCalculatedDistance (fst (run inverted tr s)) = lastCalculatedDistance s) /\
  (Forall (fun c => ~ is_trigger c) tr ->
   lastMeasurementStartedAt (fst (run inverted tr s)) = lastMeasurementStartedAt s) /\
  (Forall (fun c => ~ is_edge c) tr ->
   hcsr04SonarPulseTravelTime (fst (run inverted tr s)) = hcsr04SonarPulseTravelTime s /\
   lastMeasurementReceivedAt (fst (run inverted tr s)) = lastMeasurementReceivedAt s /\
   timing_start (fst (run inverted tr s)) = timing_start s).
Proof.
  split; [| split].
  - intros Hno.
    apply (run_keeps inverted
             (fun s' => lastCalculatedDistance s' = lastCalculatedDistance s)
             (fun _ => True) (fun c _ => ~ is_read c)
             (step_keeps_cache inverted (lastCalculatedDistance s)) tr s eq_refl).
    apply along_Forall. exact Hno.
  - intros Hno.
    apply (run_keeps inverted
             (fun s' => lastMeasurementStartedAt s' = lastMeasurementStartedAt s)
             (fun _ => True) (fun c _ => ~ is_trigger c)
             (step_keeps_started_at inverted (lastMeasurementStartedAt s)) tr s eq_refl).
    apply along_Forall. exact Hno.
  - intros Hno.
    assert (H : (hcsr04SonarPulseTravelTime (fst (run inverted tr s)),
                 lastMeasurementReceivedAt (fst (run inverted tr s)),
                 timing_start (fst (run inverted tr s)))
                = (hcsr04SonarPulseTravelTime s, lastMeasurementReceivedAt s,
                   timing_start s)).
    { apply (run_keeps inverted
               (fun s' => (hcsr04SonarPulseTravelTime s', lastMeasurementReceivedAt s',
                           timing_start s')
                          = (hcsr04SonarPulseTravelTime s, lastMeasurementReceivedAt s,
                             timing_start s))
               (fun _ => True) (fun c _ => ~ is_edge c)
               (step_keeps_measurement inverted _) tr s eq_refl).
      apply along_Forall. exact Hno. }
    injection H as HT Hr Hts. auto.
Qed.

(** Edges and trigger calls around a cached 4 cm: the cache stays. *)
Lemma statics_have_one_writer_witness :
  let tr := [StartReading 100; EchoEdge true 100500 100; EchoEdge false 101680 101] in
  let s := mkDriver 290 6 0 5000 4 in
  Forall (fun c => ~ is_read c) tr /\
  lastCalculatedDistance (fst (run false tr s)) = 4.
Proof.
  cbv zeta.
  assert (H : Forall (fun c => ~ is_read c)
                [StartReading 100; EchoEdge true 100500 100; EchoEdge false 101680 101])
    by (repeat constructor; intros []).
  split; [exact H |].
  exact (proj1 (statics_have_one_writer false _ (mkDriver 290 6 0 5000 4)) H).
Defined.

(** * Detection *)

Section DetectFacts.

Import Detect.

(** *** The monad *)

Lemma bind_Some {A B : Type} (c : M A) (k : A -> M B) (m : machine) (x : B * machine) :
  bind c k m = Some x <->
  exists a m1, c m = Some (a, m1) /\ k a m1 = Some x.
Proof.
  unfold bind. split.
  - destruct (c m) as [[a m1] |]; [| discriminate].
    intros H. exists a, m1. auto.
  - intros (a & m1 & Hc & Hk). rewrite Hc. exact Hk.
Qed.

Lemma same_statics_refl (m : machine) : same_statics m m.
Proof. constructor; reflexivity. Qed.

Lemma same_statics_trans (m1 m2 m3 : machine) :
  same_statics m1 m2 -> same_statics m2 m3 -> same_statics m1 m3.
Proof.
  intros [a1 a2 a3 a4 a5 a6] [b1 b2 b3 b4 b5 b6].
  constructor; congruence.
Qed.

Lemma millis_Some (m : machine) (now : Z) (m' : machine) :
  millis m = Some (now, m') ->
  millis_tape m = now :: millis_tape m' /\
  echo_tape m' = echo_tape m /\ trace m' = trace m /\
  drv m' = drv m /\ same_statics m m'.
Proof.
  unfold millis. destruct (millis_tape m) as [| t rest] eqn:Htape; [discriminate |].
  intros H. injection H as <- <-. cbn. repeat split.
Qed.

Lemma IORead_echoIO_Some (m : machine) (level : bool) (m' : machine) :
  IORead_echoIO m = Some (level, m') ->
  echo_tape m = level :: echo_tape m' /\
  millis_tape m' = millis_tape m /\ trace m' = trace m /\
  drv m' = drv m /\ same_statics m m'.
Proof.
  unfold IORead_echoIO. destruct (echo_tape m) as [| l rest] eqn:Htape; [discriminate |].
  intros H. injection H as <- <-. cbn. repeat split.
Qed.

(** *** The trigger inside the detection *)

Lemma pulses_app (es1 es2 : list effect) :
  pulses (es1 ++ es2) = (pulses es1 + pulses es2)%nat.
Proof. unfold pulses. rewrite filter_app, length_app. reflexivity. Qed.

Lemma pulses_trigger_pulse (io : IO_t) (inverted : bool) :
  pulses (map (OnPin io) (trigger_pulse inverted)) = 1%nat.
Proof. destruct inverted; reflexivity. Qed.

Lemma on_pin_map (io : IO_t) (evs : list io_event) : on_pin io (map (OnPin io) evs).
Proof.
  unfold on_pin. induction evs as [| ev evs IH]; cbn; constructor.
  - exists ev. reflexivity.
  - exact IH.
Qed.

Lemma start_reading_Some (b : build) (m : machine) (u : unit) (m' : machine) :
  start_reading b m = Some (u, m') ->
  exists now new,
    millis_tape m = now :: millis_tape m' /\
    echo_tape m' = echo_tape m /\
    trace m' = trace m ++ new /\
    on_pin (triggerIO m) new /\
    (pulses new <= 1)%nat /\
    same_statics m m'.
Proof.
  unfold start_reading. intros H.
  apply bind_Some in H. destruct H as (now & m1 & Hmillis & H).
  apply millis_Some in Hmillis.
  destruct Hmillis as (Htape & Hecho & Htrace & Hdrv & Hsame).
  destruct (hcsr04_start_reading (SONAR_TRIG_INVERTED b) now (drv m1)) as [d io] eqn:Hsr.
  injection H as _ <-. cbn.
  exists now, (map (OnPin (triggerIO m1)) io).
  destruct Hsame as [s1 s2 s3 s4 s5 s6].
  pose proof (start_reading_frame (SONAR_TRIG_INVERTED b) now (drv m1)) as Hframe.
  rewrite Hsr in Hframe. cbn in Hframe. destruct Hframe as (f1 & f2 & f3 & f4).
  split; [exact Htape |]. split; [exact Hecho |]. split; [congruence |].
  split; [| split; [| constructor; cbn; congruence]].
  - rewrite <- s1. apply on_pin_map.
  - destruct (start_reading_started_at (SONAR_TRIG_INVERTED b) now (drv m1))
      as [[Hio _] | [Hio _]]; rewrite Hsr in Hio; cbn in Hio; rewrite Hio.
    + cbn. lia.
    + rewrite pulses_trigger_pulse. lia.
Qed.

(** *** The wait for the echo *)

Lemma wait_for_echo_Some (fuel : nat) (requestTime : Z) :
  forall m r m',
    wait_for_echo fuel requestTime m = Some (r, m') ->
    (exists lows, echo_tape m = lows ++ echo_tape m' /\
                  (r = true -> In true lows)) /\
    (exists readings, millis_tape m = readings ++ millis_tape m') /\
    trace m' = trace m /\ drv m' = drv m /\ same_statics m m'.
Proof.
  induction fuel as [| fuel IH]; intros m r m' H; [discriminate |].
  cbn [wait_for_echo] in H.
  apply bind_Some in H. destruct H as (now & m1 & Hmillis & H).
  apply millis_Some in Hmillis.
  destruct Hmillis as (Htape & Hecho & Htrace & Hdrv & Hsame).
  destruct (u32 (now - requestTime) <? HCSR04_MinimumFiringIntervalMs).
  - apply bind_Some in H. destruct H as (level & m2 & Hread & H).
    apply IORead_echoIO_Some in Hread.
    destruct Hread as (Hetape & Hmtape & Htrace2 & Hdrv2 & Hsame2).
    destruct level.
    + injection H as <- <-.
      refine (conj _ (conj _ (conj _ (conj _ _)))); try congruence.
      * exists [true]. split; [cbn; congruence | intros _; left; reflexivity].
      * exists [now]. cbn. congruence.
      * eapply same_statics_trans; eassumption.
    + destruct (IH m2 r m' H) as ((lows & Hl & Hin) & (rs & Hrs) & Ht & Hd & Hs).
      refine (conj _ (conj _ (conj _ (conj _ _)))); try congruence.
      * exists (false :: lows). split; [cbn; congruence |].
        intros Hr. right. exact (Hin Hr).
      * exists (now :: rs). cbn. congruence.
      * eapply same_statics_trans; [exact Hsame |].
        eapply same_statics_trans; eassumption.
  - injection H as <- <-.
    refine (conj _ (conj _ (conj _ (conj _ _)))); try congruence.
    + exists []. split; [cbn; congruence | discriminate].
    + exists [now]. cbn. congruence.
Qed.

(** *** The five attempts *)

Lemma attempts_Some (b : build) (n : nat) :
  forall m r m',
    attempts b n m = Some (r, m') ->
    (exists lows, echo_tape m = lows ++ echo_tape m' /\
                  (r = true -> In true lows)) /\
    (exists new, trace m' = trace m ++ new /\
                 on_pin (triggerIO m) new /\
                 (pulses new <= n)%nat) /\
    same_statics m m'.
Proof.
  induction n as [| n IH]; intros m r m' H.
  - injection H as <- <-. refine (conj _ (conj _ _)).
    + exists []. split; [reflexivity | discriminate].
    + exists []. rewrite app_nil_r.
      split; [reflexivity |]. split; [constructor | cbn; lia].
    + apply same_statics_refl.
  - cbn [attempts] in H.
    apply bind_Some in H. destruct H as (requestTime & m1 & Hmillis & H).
    apply millis_Some in Hmillis.
    destruct Hmillis as (Htape & Hecho & Htrace & Hdrv & Hsame).
    apply bind_Some in H. destruct H as (u & m2 & Hsr & H).
    apply start_reading_Some in Hsr.
    destruct Hsr as (now & new & Htape2 & Hecho2 & Htrace2 & Hpin2 & Hp2 & Hsame2).
    apply bind_Some in H. destruct H as (detected & m3 & Hwait & H).
    apply wait_for_echo_Some in Hwait.
    destruct Hwait as ((lows & Hl & Hin) & _ & Htrace3 & Hdrv3 & Hsame3).
    assert (Hs13 : same_statics m m3).
    { eapply same_statics_trans; [exact Hsame |].
      eapply same_statics_trans; eassumption. }
    assert (Htrig : triggerIO m1 = triggerIO m) by apply Hsame.
    assert (Htrig3 : triggerIO m3 = triggerIO m) by apply Hs13.
    destruct detected.
    + injection H as <- <-. refine (conj _ (conj _ _)).
      * exists lows. split; [congruence | exact Hin].
      * exists new. rewrite Htrace3, Htrace2, Htrace, <- Htrig.
        split; [reflexivity |]. split; [exact Hpin2 | lia].
      * exact Hs13.
    + destruct (IH m3 r m' H) as ((lows' & Hl' & Hin') & (new' & Ht' & Hpin' & Hp') & Hs').
      refine (conj _ (conj _ _)).
      * exists (lows ++ lows'). split.
        -- rewrite <- app_assoc, <- Hl'. congruence.
        -- intros Hr. apply in_or_app. right. exact (Hin' Hr).
      * exists (new ++ new'). rewrite Ht', Htrace3, Htrace2, Htrace, app_assoc.
        split; [reflexivity |]. split.
        -- apply Forall_app. split.
           ++ rewrite <- Htrig. exact Hpin2.
           ++ rewrite <- Htrig3. exact Hpin'.
        -- rewrite pulses_app. lia.
      * eapply same_statics_trans; eassumption.
Qed.

(** *** The whole function *)

(** The machine after the clock commands and the two assignments. *)
Lemma hcsr04Detect_conflict (b : build) (IOGetOwner : IO_t -> resourceOwner_e)
    (dev : rangefinderDev_t) (pins : rangefinderHardwarePins_t) (m : machine)
    (o : resourceOwner_e) :
  let trig := IOGetByTag (triggerTag pins) in
  let echo := IOGetByTag (echoTag pins) in
  (is_free (IOGetOwner trig) = false /\ o = IOGetOwner trig) \/
  (is_free (IOGetOwner trig) = true /\ is_free (IOGetOwner echo) = false /\
   o = IOGetOwner echo) ->
  hcsr04Detect b IOGetOwner dev pins m
  = Some ((false, dev),
          mkMachine (drv m) trig echo (millis_tape m) (echo_tape m)
                    ((trace m ++ rcc_commands b) ++ [addBootlogEvent4 o])).
Proof.
  cbv zeta. intros [[Ht ->] | (Ht & He & ->)];
    unfold hcsr04Detect, bind, call_platform, set_pins, get_triggerIO, get_echoIO, ret;
    cbn; rewrite Ht; cbn; [reflexivity |].
  rewrite He. reflexivity.
Qed.

Lemma hcsr04Detect_free (b : build) (IOGetOwner : IO_t -> resourceOwner_e)
    (dev : rangefinderDev_t) (pins : rangefinderHardwarePins_t) (m : machine) :
  let trig := IOGetByTag (triggerTag pins) in
  let echo := IOGetByTag (echoTag pins) in
  is_free (IOGetOwner trig) = true ->
  is_free (IOGetOwner echo) = true ->
  hcsr04Detect b IOGetOwner dev pins m
  = (level <- IORead_echoIO ;;
     detected <- (if level then ret false else attempts b 5) ;;
     if detected then
       call_platform (enable_exti b echo) ;; ret (true, detected_dev)
     else
       call_platform (release_pins trig echo) ;; ret (false, dev))
      (mkMachine (drv m) trig echo (millis_tape m) (echo_tape m)
                 ((trace m ++ rcc_commands b) ++ claim_pins trig echo)).
Proof.
  cbv zeta. intros Ht He.
  unfold hcsr04Detect.
  unfold bind at 1 2 3 4, call_platform at 1, set_pins, get_triggerIO, get_echoIO.
  cbn. rewrite Ht, He. cbn. reflexivity.
Qed.

(** What a run with both pins free amounts to. *)
Lemma hcsr04Detect_free_Some (b : build) (IOGetOwner : IO_t -> resourceOwner_e)
    (dev : rangefinderDev_t) (pins : rangefinderHardwarePins_t)
    (m : machine) (r : bool) (dev' : rangefinderDev_t) (m' : machine) :
  let trig := IOGetByTag (triggerTag pins) in
  let echo := IOGetByTag (echoTag pins) in
  is_free (IOGetOwner trig) = true ->
  is_free (IOGetOwner echo) = true ->
  hcsr04Detect b IOGetOwner dev pins m = Some ((r, dev'), m') ->
  exists level lows mid,
    dev' = (if r then detected_dev else dev) /\
    echo_tape m = level :: lows ++ echo_tape m' /\
    (r = true -> level = false /\ In true lows) /\
    (level = true ->
     r = false /\ lows = [] /\ mid = [] /\
     millis_tape m' = millis_tape m /\ drv m' = drv m) /\
    trace m' = trace m ++ rcc_commands b ++ claim_pins trig echo ++ mid
               ++ (if r then enable_exti b echo else release_pins trig echo) /\
    on_pin trig mid /\
    (pulses mid <= 5)%nat /\
    triggerIO m' = trig /\ echoIO m' = echo /\
    hcsr04SonarPulseTravelTime (drv m') = hcsr04SonarPulseTravelTime (drv m) /\
    lastMeasurementReceivedAt (drv m') = lastMeasurementReceivedAt (drv m) /\
    timing_start (drv m') = timing_start (drv m) /\
    lastCalculatedDistance (drv m') = lastCalculatedDistance (drv m).
Proof.
  cbv zeta. intros Ht He H.
  rewrite hcsr04Detect_free in H by assumption.
  set (trig := IOGetByTag (triggerTag pins)) in *.
  set (echo := IOGetByTag (echoTag pins)) in *.
  apply bind_Some in H. destruct H as (level & m1 & Hread & H).
  apply IORead_echoIO_Some in Hread. cbn in Hread.
  destruct Hread as (Hetape & Hmtape & Htrace & Hdrv & Hsame).
  apply bind_Some in H. destruct H as (detected & m2 & Hatt & H).
  assert (Hfinal : r = detected /\ dev' = (if detected then detected_dev else dev) /\
                   m' = mkMachine (drv m2) (triggerIO m2) (echoIO m2)
                          (millis_tape m2) (echo_tape m2)
                          (trace m2 ++ (if detected then enable_exti b echo
                                        else release_pins trig echo))).
  { destruct detected; unfold bind, call_platform, ret in H;
      injection H as <- <- <-; auto. }
  destruct Hfinal as (-> & -> & ->). clear H. cbn.
  destruct Hsame as [s1 s2 s3 s4 s5 s6]. cbn in s1, s2, s3, s4, s5, s6.
  destruct level.
  - injection Hatt as <- <-.
    exists true, [], [].
    rewrite Htrace, <- !app_assoc. cbn [app].
    repeat split; try congruence; try discriminate; try constructor.
    cbn. lia.
  - apply attempts_Some in Hatt.
    destruct Hatt as ((lows & Hl & Hin) & (mid & Hmid & Hpin & Hp) & [a1 a2 a3 a4 a5 a6]).
    exists false, lows, mid.
    rewrite Hmid, Htrace, <- !app_assoc.
    repeat split; try congruence; try discriminate.
    apply Hin. assumption.
Qed.

(** *** Termination *)

Lemma keeps_time_app (bound : nat) (pre clock : list Z) :
  keeps_time bound (pre ++ clock) = true -> keeps_time bound clock = true.
Proof.
  induction pre as [| t pre IH]; cbn [app keeps_time]; [auto |].
  intros H. apply andb_true_iff in H. apply IH, H.
Qed.

Lemma start_reading_total (b : build) (m : machine) (now : Z) (rest : list Z) :
  millis_tape m = now :: rest ->
  exists m',
    start_reading b m = Some (tt, m') /\
    millis_tape m' = rest /\ echo_tape m' = echo_tape m.
Proof.
  intros Htape. unfold start_reading, bind, millis. rewrite Htape. cbn.
  destruct (hcsr04_start_reading (SONAR_TRIG_INVERTED b) now (drv m)) as [d io].
  eexists. split; [reflexivity |]. cbn. auto.
Qed.

(** With a reading past the deadline among the next [bound] ones, the wait
    ends within [bound] clock readings and [bound] pin readings. *)
Lemma wait_for_echo_total (requestTime : Z) (bound : nat) :
  forall fuel m,
    (length (millis_tape m) <= fuel)%nat ->
    existsb (past_deadline requestTime) (firstn bound (millis_tape m)) = true ->
    (bound <= length (echo_tape m))%nat ->
    exists r m',
      wait_for_echo fuel requestTime m = Some (r, m') /\
      (length (millis_tape m) <= length (millis_tape m') + bound)%nat /\
      (length (echo_tape m) <= length (echo_tape m') + bound)%nat.
Proof.
  induction bound as [| bound IH]; intros fuel m Hfuel Hpast Hecho.
  - discriminate.
  - destruct (millis_tape m) as [| now rest] eqn:Hclock; [discriminate |].
    destruct fuel as [| fuel]; [cbn in Hfuel; lia |].
    cbn [wait_for_echo]. unfold bind at 1. unfold millis. rewrite Hclock.
    cbn [firstn existsb] in Hpast. unfold past_deadline at 1 in Hpast.
    destruct (u32 (now - requestTime) <? HCSR04_MinimumFiringIntervalMs).
    + cbn [negb orb] in Hpast.
      destruct (echo_tape m) as [| level erest] eqn:Hetape; [cbn in Hecho; lia |].
      unfold bind at 1. unfold IORead_echoIO. cbn.
      destruct level.
      * eexists _, _. split; [reflexivity |]. cbn. lia.
      * match goal with
        | |- exists r m', wait_for_echo fuel requestTime ?m2 = _ /\ _ =>
            destruct (IH fuel m2) as (r & m' & Hw & Hc & He)
        end.
        -- cbn. cbn in Hfuel. lia.
        -- cbn. exact Hpast.
        -- cbn. cbn in Hecho. lia.
        -- exists r, m'. split; [exact Hw |]. cbn in Hc, He. cbn. lia.
    + eexists _, _. split; [reflexivity |]. cbn. lia.
Qed.

Lemma attempts_total (b : build) (bound : nat) :
  forall n m,
    keeps_time bound (millis_tape m) = true ->
    (n * (bound + 2) <= length (millis_tape m))%nat ->
    (n * bound <= length (echo_tape m))%nat ->
    exists r m', attempts b n m = Some (r, m').
Proof.
  induction n as [| n IH]; intros m Hkeeps Hclock Hecho.
  - eexists _, _. reflexivity.
  - destruct (millis_tape m) as [| requestTime [| now rest]] eqn:Htape;
      try (cbn in Hclock; lia).
    cbn [keeps_time tl] in Hkeeps.
    apply andb_true_iff in Hkeeps. destruct Hkeeps as [Hhead Hkeeps].
    assert (Hrest : (bound <= length rest)%nat) by (cbn in Hclock; lia).
    apply orb_true_iff in Hhead. destruct Hhead as [Hshort | Hpast];
      [apply Nat.ltb_lt in Hshort; lia |].
    cbn [attempts]. unfold bind at 1. unfold millis at 1. rewrite Htape.
    match goal with
    | |- exists r m', bind (start_reading b) _ ?m1 = _ =>
        destruct (start_reading_total b m1 now rest eq_refl) as (m2 & Hsr & Hm2 & He2)
    end.
    unfold bind at 1. rewrite Hsr. cbn in He2.
    destruct (wait_for_echo_total requestTime bound (length (millis_tape m2)) m2)
      as (d & m3 & Hw & Hc3 & He3).
    + lia.
    + rewrite Hm2. exact Hpast.
    + rewrite He2. cbn in Hecho. lia.
    + unfold bind at 1. rewrite Hw.
      destruct d; [eexists _, _; reflexivity |].
      apply wait_for_echo_Some in Hw.
      destruct Hw as (_ & (pre & Hpre) & _).
      apply IH.
      * apply keeps_time_app with (pre := now :: pre).
        cbn [app]. rewrite <- Hpre, Hm2. exact Hkeeps.
      * rewrite Hm2 in Hc3. cbn in Hclock. lia.
      * rewrite He2 in He3. cbn in Hecho. lia.
Qed.

End DetectFacts.

Section DetectProperties.

Import Detect.

Variable b : build.
Variable IOGetOwner : IO_t -> resourceOwner_e.
Variable dev : rangefinderDev_t.
Variable pins : rangefinderHardwarePins_t.

Let trig : IO_t := IOGetByTag (triggerTag pins).
Let echo : IO_t := IOGetByTag (echoTag pins).


Lemma is_free_true (o : resourceOwner_e) : is_free o = true <-> o = OWNER_FREE.
Proof. destruct o; cbn; split; intros H; congruence. Qed.




(** X13. The platform calls of a run with both pins free, in order: the
    clock commands, the six calls that take and configure the pins, at most
    five trigger pulses, all on the trigger pin, and then either the EXTI
    set-up on the echo pin (after a detection, when [USE_EXTI] is defined)
    or the release of both pins (after a failure).  A detection releases no
    pin and a failure releases both. *)
Theorem hcsr04Detect_platform_calls (m : machine) (r : bool)
    (dev' : rangefinderDev_t) (m' : machine) :
  IOGetOwner trig = OWNER_FREE ->
  IOGetOwner echo = OWNER_FREE ->
  hcsr04Detect b IOGetOwner dev pins m = Some ((r, dev'), m') ->
  exists mid,
    trace m' = trace m ++ rcc_commands b ++ claim_pins trig echo ++ mid
               ++ (if r then enable_exti b echo else release_pins trig echo) /\
    on_pin trig mid /\
    (pulses mid <= 5)%nat /\
    existsb is_release (rcc_commands b ++ claim_pins trig echo ++ mid) = false.
Proof.
  intros Ht He H.
  apply is_free_true in Ht. apply is_free_true in He.
  destruct (hcsr04Detect_free_Some b IOGetOwner dev pins m r dev' m' Ht He H)
    as (level & lows & mid & _ & _ & _ & _ & Htrace & Hpin & Hp & _).
  exists mid. repeat split; try assumption.
  rewrite !existsb_app.
  assert (Hrcc : existsb is_release (rcc_commands b) = false).
  { unfold rcc_commands.
    destruct (STM32F10X b), (STM32F3 b), (STM32F4 b); reflexivity. }
  assert (Hmid : existsb is_release mid = false).
  { clear - Hpin. unfold on_pin in Hpin.
    induction Hpin as [| e es [ev ->] _ IH]; [reflexivity | exact IH]. }
  rewrite Hrcc, Hmid. reflexivity.
Qed.

(** X14. When the echo line reads high at the first reading, with both pins
    free, [hcsr04Detect] gives up at once: no trigger pulse, no reading of
    the clock, one reading of the echo line; it releases both pins, returns
    [false] and leaves the device record and the driver state untouched. *)
Theorem hcsr04Detect_echo_high_at_start (m : machine) (readings : list bool) :
  IOGetOwner trig = OWNER_FREE ->
  IOGetOwner echo = OWNER_FREE ->
  echo_tape m = true :: readings ->
  hcsr04Detect b IOGetOwner dev pins m
  = Some ((false, dev),
          mkMachine (drv m) trig echo (millis_tape m) readings
                    (trace m ++ rcc_commands b ++ claim_pins trig echo
                     ++ release_pins trig echo)).
Proof.
  intros Ht He Htape.
  apply is_free_true in Ht. apply is_free_true in He.
  rewrite hcsr04Detect_free by assumption.
  unfold bind, IORead_echoIO, ret, call_platform. cbn. rewrite Htape. cbn.
  rewrite <- !app_assoc. reflexivity.
Qed.

(** X15. Whatever its outcome, [hcsr04Detect] leaves the stored travel
    time, the receipt stamp, the pending rising-edge stamp and the cached
    distance as they were, and it leaves [triggerIO] and [echoIO] set to the
    pins of the two tags, also when it refuses them. *)
Theorem hcsr04Detect_keeps_measurement (m : machine) (r : bool)
    (dev' : rangefinderDev_t) (m' : machine) :
  hcsr04Detect b IOGetOwner dev pins m = Some ((r, dev'), m') ->
  triggerIO m' = trig /\ echoIO m' = echo /\
  hcsr04SonarPulseTravelTime (drv m') = hcsr04SonarPulseTravelTime (drv m) /\
  lastMeasurementReceivedAt (drv m') = lastMeasurementReceivedAt (drv m) /\
  timing_start (drv m') = timing_start (drv m) /\
  lastCalculatedDistance (drv m') = lastCalculatedDistance (drv m).
Proof.
  intros H.
  destruct (is_free (IOGetOwner trig)) eqn:Ht;
    [destruct (is_free (IOGetOwner echo)) eqn:He |].
  - destruct (hcsr04Detect_free_Some b IOGetOwner dev pins m r dev' m' Ht He H)
      as (level & lows & mid & _ & _ & _ & _ & _ & _ & _ & Hrest).
    exact Hrest.
  - rewrite (hcsr04Detect_conflict b IOGetOwner dev pins m (IOGetOwner echo)) in H
      by (right; auto).
    injection H as _ _ <-. cbn. repeat split.
  - rewrite (hcsr04Detect_conflict b IOGetOwner dev pins m (IOGetOwner trig)) in H
      by (left; auto).
    injection H as _ _ <-. cbn. repeat split.
Qed.

(** X16. [hcsr04Detect] returns.  Let the clock keep time in the sense that
    after any reading one of the [bound] readings that follow the next one
    is at least 60 ms later; then, with [5 * (bound + 2)] clock readings and
    [1 + 5 * bound] echo readings at hand, the function returns a verdict,
    and the verdict is [false] when the echo line never reads high. *)
Theorem hcsr04Detect_returns (m : machine) (bound : nat) :
  keeps_time bound (millis_tape m) = true ->
  (5 * (bound + 2) <= length (millis_tape m))%nat ->
  (1 + 5 * bound <= length (echo_tape m))%nat ->
  exists r dev' m',
    hcsr04Detect b IOGetOwner dev pins m = Some ((r, dev'), m') /\
    (Forall (fun level => level = false) (echo_tape m) -> r = false).
Proof.
  intros Hkeeps Hclock Hecho.
  assert (Hsome : exists r dev' m',
             hcsr04Detect b IOGetOwner dev pins m = Some ((r, dev'), m')).
  { destruct (is_free (IOGetOwner trig)) eqn:Ht;
      [destruct (is_free (IOGetOwner echo)) eqn:He |].
    - rewrite hcsr04Detect_free by assumption.
      destruct (echo_tape m) as [| level readings] eqn:Htape; [cbn in Hecho; lia |].
      unfold bind at 1. unfold IORead_echoIO.
      cbn [echo_tape drv triggerIO echoIO millis_tape trace].
      destruct level.
      + eexists _, _, _. reflexivity.
      + match goal with
        | |- exists r dev' m', bind (attempts b 5) _ ?m1 = _ =>
            destruct (attempts_total b bound 5 m1) as (d & m2 & Hatt)
        end; try (cbn; cbn in Hecho; assumption || lia).
        unfold bind at 1. rewrite Hatt.
        destruct d; eexists _, _, _; reflexivity.
    - rewrite (hcsr04Detect_conflict b IOGetOwner dev pins m (IOGetOwner echo))
        by (right; auto).
      eexists _, _, _. reflexivity.
    - rewrite (hcsr04Detect_conflict b IOGetOwner dev pins m (IOGetOwner trig))
        by (left; auto).
      eexists _, _, _. reflexivity. }
  destruct Hsome as (r & dev' & m' & H).
  exists r, dev', m'. split; [exact H |].
  intros Hlow. destruct r; [| reflexivity].
  destruct (is_free (IOGetOwner trig)) eqn:Ht;
    [destruct (is_free (IOGetOwner echo)) eqn:He |].
  - destruct (hcsr04Detect_free_Some b IOGetOwner dev pins m true dev' m' Ht He H)
      as (level & lows & mid & _ & Htape & Hyes & _).
    destruct (Hyes eq_refl) as [_ Hin].
    rewrite Htape in Hlow. inversion Hlow as [| x l _ Hl]; subst.
    apply Forall_app in Hl. destruct Hl as [Hl _].
    rewrite Forall_forall in Hl. specialize (Hl true Hin). discriminate.
  - rewrite (hcsr04Detect_conflict b IOGetOwner dev pins m (IOGetOwner echo)) in H
      by (right; auto).
    discriminate.
  - rewrite (hcsr04Detect_conflict b IOGetOwner dev pins m (IOGetOwner trig)) in H
      by (left; auto).
    discriminate.
Qed.

End DetectProperties.

(** *** An absent sensor and a fast clock *)

Section AbsentSensor.

Import Detect.

Variable b : build.

Lemma machine_eta (m : machine) (clock : list Z) (echo : list bool) :
  millis_tape m = clock ->
  echo_tape m = echo ->
  m = mkMachine (drv m) (triggerIO m) (echoIO m) clock echo (trace m).
Proof. destruct m. cbn. intros -> ->. reflexivity. Qed.

(** The wait reads through [j] equal clock readings before the deadline,
    finding the echo line low each time. *)
Lemma wait_for_echo_block (requestTime x : Z) (j : nat) :
  forall fuel m rest erest,
    (u32 (x - requestTime) <? HCSR04_MinimumFiringIntervalMs) = true ->
    millis_tape m = repeat x j ++ rest ->
    echo_tape m = repeat false j ++ erest ->
    wait_for_echo (j + fuel) requestTime m
    = wait_for_echo fuel requestTime
        (mkMachine (drv m) (triggerIO m) (echoIO m) rest erest (trace m)).
Proof.
  induction j as [| j IH]; intros fuel m rest erest Hx Hclock Hecho.
  - cbn in *. rewrite <- (machine_eta m rest erest Hclock Hecho). reflexivity.
  - cbn [plus wait_for_echo repeat app] in *.
    unfold bind at 1. unfold millis. rewrite Hclock, Hx.
    unfold bind at 1. unfold IORead_echoIO. cbn [echo_tape]. rewrite Hecho.
    rewrite (IH fuel _ rest erest Hx); reflexivity.
Qed.

(** From a reading [d] ms before the deadline on, on a clock read [per_ms]
    times per millisecond and with the echo line low, the wait ends at the
    first reading of the deadline's millisecond. *)
Lemma wait_for_echo_slow_clock (per_ms : nat) (requestTime : Z) :
  (1 <= per_ms)%nat ->
  forall d t fuel m n erest,
    t = requestTime + 60 - Z.of_nat d ->
    (d <= 60)%nat ->
    millis_tape m = slow_clock per_ms t (S d + n) ->
    echo_tape m = repeat false (d * per_ms) ++ erest ->
    (d * per_ms + 1 <= fuel)%nat ->
    wait_for_echo fuel requestTime m
    = Some (false,
            mkMachine (drv m) (triggerIO m) (echoIO m)
              (repeat (requestTime + 60) (per_ms - 1)
               ++ slow_clock per_ms (requestTime + 61) n)
              erest (trace m)).
Proof.
  intros Hper. induction d as [| d IH]; intros t fuel m n erest Ht Hd Hclock Hecho Hfuel.
  - cbn [Z.of_nat] in Ht. rewrite Z.sub_0_r in Ht. subst t.
    destruct per_ms as [| k]; [lia |].
    destruct fuel as [| fuel]; [lia |].
    cbn [plus slow_clock repeat app] in Hclock.
    cbn [wait_for_echo]. unfold bind at 1. unfold millis. rewrite Hclock.
    replace (requestTime + 60 - requestTime) with 60 by lia.
    cbn [Nat.sub]. rewrite Nat.sub_0_r.
    replace (requestTime + 60 + 1) with (requestTime + 61) by lia.
    cbn in Hecho. rewrite Hecho. reflexivity.
  - replace (S (S d) + n)%nat with (S (S d + n)) in Hclock by lia.
    cbn [slow_clock] in Hclock.
    replace (S d * per_ms)%nat with (per_ms + d * per_ms)%nat in Hecho by lia.
    rewrite repeat_app, <- app_assoc in Hecho.
    replace fuel with (per_ms + (fuel - per_ms))%nat by lia.
    rewrite (wait_for_echo_block requestTime t per_ms (fuel - per_ms) m
               (slow_clock per_ms (t + 1) (S d + n))
               (repeat false (d * per_ms) ++ erest)); try assumption.
    + rewrite (IH (t + 1) (fuel - per_ms)%nat _ n erest);
        [reflexivity | lia | lia | reflexivity | reflexivity | lia].
    + subst t. apply Z.ltb_lt.
      rewrite u32_small; unfold is_u32, u32_modulus, HCSR04_MinimumFiringIntervalMs; lia.
Qed.

(** One attempt that times out, on a clock read [per_ms] times per
    millisecond: the attempt begins in millisecond [t], of which [j >= 2]
    readings are left, and ends at the first reading of millisecond
    [t + 60]. *)
Lemma attempt_times_out (per_ms j k n : nat) (t : Z) (m : machine) (erest : list bool) :
  (1 <= per_ms)%nat ->
  (2 <= j)%nat ->
  millis_tape m = repeat t j ++ slow_clock per_ms (t + 1) (60 + n) ->
  echo_tape m = repeat false (j - 2 + 59 * per_ms) ++ erest ->
  attempts b (S k) m
  = attempts b k
      (mkMachine (fst (hcsr04_start_reading (SONAR_TRIG_INVERTED b) t (drv m)))
         (triggerIO m) (echoIO m)
         (repeat (t + 60) (per_ms - 1) ++ slow_clock per_ms (t + 61) n)
         erest
         (trace m ++ map (OnPin (triggerIO m))
                       (snd (hcsr04_start_reading (SONAR_TRIG_INVERTED b) t (drv m))))).
Proof.
  intros Hper Hj Hclock Hecho.
  destruct j as [| [| j]]; try lia.
  cbn [repeat app] in Hclock. cbn [Nat.sub] in Hecho. rewrite Nat.sub_0_r in Hecho.
  cbn [attempts]. unfold bind at 1. unfold millis at 1. rewrite Hclock.
  unfold bind at 1. unfold start_reading, bind, millis.
  cbn [millis_tape drv triggerIO echoIO echo_tape trace].
  destruct (hcsr04_start_reading (SONAR_TRIG_INVERTED b) t (drv m)) as [d io].
  cbn [fst snd millis_tape length].
  rewrite repeat_app, <- app_assoc in Hecho.
  rewrite length_app, repeat_length.
  rewrite (wait_for_echo_block t t j _ _
             (slow_clock per_ms (t + 1) (60 + n))
             (repeat false (59 * per_ms) ++ erest)).
  - cbn [drv triggerIO echoIO trace].
    rewrite (wait_for_echo_slow_clock per_ms t Hper 59 (t + 1) _ _ n erest).
    + cbn [drv triggerIO echoIO trace]. reflexivity.
    + lia.
    + lia.
    + cbn [millis_tape]. replace (S 59 + n)%nat with (60 + n)%nat by lia. reflexivity.
    + cbn [echo_tape]. reflexivity.
    + assert (Hlen : forall c x q, (q * c <= length (slow_clock c x q))%nat).
      { clear. intros c x q. revert x.
        induction q as [| q IHq]; intros x; cbn [slow_clock]; [cbn; lia |].
        rewrite length_app, repeat_length. specialize (IHq (x + 1)). lia. }
      specialize (Hlen per_ms (t + 1) (60 + n)%nat). lia.
  - rewrite Z.sub_diag. reflexivity.
  - reflexivity.
  - cbn [echo_tape]. exact Hecho.
Qed.

(** The attempt sends a pulse when its clock reading is more than 60 ms
    after the last trigger, and none otherwise. *)
Lemma attempt_fires (per_ms j k n : nat) (t : Z) (m : machine) (erest : list bool) :
  (1 <= per_ms)%nat ->
  (2 <= j)%nat ->
  millis_tape m = repeat t j ++ slow_clock per_ms (t + 1) (60 + n) ->
  echo_tape m = repeat false (j - 2 + 59 * per_ms) ++ erest ->
  0 <= lastMeasurementStartedAt (drv m) ->
  lastMeasurementStartedAt (drv m) + 60 < t ->
  t < u32_modulus ->
  attempts b (S k) m
  = attempts b k
      (mkMachine (set_lastMeasurementStartedAt t (drv m))
         (triggerIO m) (echoIO m)
         (repeat (t + 60) (per_ms - 1) ++ slow_clock per_ms (t + 60 + 1) n)
         erest
         (trace m ++ map (OnPin (triggerIO m))
                       (trigger_pulse (SONAR_TRIG_INVERTED b)))).
Proof.
  intros Hper Hj Hclock Hecho Hpos Hlate Hfit.
  rewrite (attempt_times_out per_ms j k n t m erest) by assumption.
  rewrite start_reading_fires.
  - cbn [fst snd]. replace (t + 60 + 1) with (t + 61) by lia. reflexivity.
  - rewrite u32_add_no_wrap; unfold HCSR04_MinimumFiringIntervalMs; lia.
Qed.

Lemma attempt_skips (per_ms j k n : nat) (t : Z) (m : machine) (erest : list bool) :
  (1 <= per_ms)%nat ->
  (2 <= j)%nat ->
  millis_tape m = repeat t j ++ slow_clock per_ms (t + 1) (60 + n) ->
  echo_tape m = repeat false (j - 2 + 59 * per_ms) ++ erest ->
  0 <= lastMeasurementStartedAt (drv m) ->
  t <= lastMeasurementStartedAt (drv m) + 60 ->
  lastMeasurementStartedAt (drv m) + 60 < u32_modulus ->
  attempts b (S k) m
  = attempts b k
      (mkMachine (drv m) (triggerIO m) (echoIO m)
         (repeat (t + 60) (per_ms - 1) ++ slow_clock per_ms (t + 60 + 1) n)
         erest (trace m)).
Proof.
  intros Hper Hj Hclock Hecho Hpos Hearly Hfit.
  rewrite (attempt_times_out per_ms j k n t m erest) by assumption.
  rewrite start_reading_skips.
  - cbn [fst snd map]. rewrite app_nil_r.
    replace (t + 60 + 1) with (t + 61) by lia. reflexivity.
  - rewrite u32_add_no_wrap; unfold HCSR04_MinimumFiringIntervalMs; lia.
Qed.

Lemma all_low_prefix (c : nat) (l : list bool) :
  Forall (fun level => level = false) l ->
  (c <= length l)%nat ->
  l = repeat false c ++ skipn c l.
Proof.
  revert l. induction c as [| c IH]; intros l Hlow Hlen; [reflexivity |].
  destruct l as [| x l]; [cbn in Hlen; lia |].
  inversion Hlow as [| y l' Hx Hl]; subst.
  cbn [repeat app skipn]. f_equal. apply IH; [exact Hl | cbn in Hlen; lia].
Qed.

(** Five attempts with no answer, on a clock read at least three times per
    millisecond: the second and the fourth attempt begin in the millisecond
    in which the attempt before them ran out, 60 ms after its pulse, and
    send none. *)
Lemma attempts_absent_sensor (per_ms n : nat) (t : Z) (m : machine) :
  (3 <= per_ms)%nat ->
  millis_tape m = slow_clock per_ms t (301 + n) ->
  Forall (fun level => level = false) (echo_tape m) ->
  (300 * per_ms <= length (echo_tape m))%nat ->
  0 <= lastMeasurementStartedAt (drv m) ->
  lastMeasurementStartedAt (drv m) + 60 < t ->
  t + 300 < u32_modulus ->
  exists clock echo,
    attempts b 5 m
    = Some (false,
            mkMachine (set_lastMeasurementStartedAt (t + 240) (drv m))
              (triggerIO m) (echoIO m) clock echo
              (trace m
               ++ map (OnPin (triggerIO m)) (trigger_pulse (SONAR_TRIG_INVERTED b))
               ++ map (OnPin (triggerIO m)) (trigger_pulse (SONAR_TRIG_INVERTED b))
               ++ map (OnPin (triggerIO m)) (trigger_pulse (SONAR_TRIG_INVERTED b)))).
Proof.
  intros Hper Hclock Hlow Hlen Hpos Hlate Hfit.
  set (c1 := (per_ms - 2 + 59 * per_ms)%nat).
  set (c2 := (per_ms - 1 - 2 + 59 * per_ms)%nat).
  pose proof (all_low_prefix (c1 + (c2 + (c2 + (c2 + c2)))) (echo_tape m) Hlow) as Hecho.
  specialize (Hecho ltac:(unfold c1, c2; lia)).
  rewrite !repeat_app, <- !app_assoc in Hecho.
  set (erest := skipn (c1 + (c2 + (c2 + (c2 + c2)))) (echo_tape m)) in Hecho.
  replace (301 + n)%nat with (S (60 + (60 + (60 + (60 + (60 + n)))))) in Hclock by lia.
  cbn [slow_clock] in Hclock.
  unfold u32_modulus in *.
  rewrite (attempt_fires per_ms per_ms 4 _ t m _ ltac:(lia) ltac:(lia) Hclock Hecho
             Hpos Hlate ltac:(unfold u32_modulus; lia)).
  erewrite (attempt_skips per_ms (per_ms - 1) 3 _ (t + 60));
    [| lia | lia | reflexivity | reflexivity | (cbn; unfold u32_modulus in *; lia) | (cbn; unfold u32_modulus in *; lia) | (cbn; unfold u32_modulus in *; lia)].
  cbn [drv triggerIO echoIO trace].
  erewrite (attempt_fires per_ms (per_ms - 1) 2 _ (t + 60 + 60));
    [| lia | lia | reflexivity | reflexivity | (cbn; unfold u32_modulus in *; lia) | (cbn; unfold u32_modulus in *; lia) | (unfold u32_modulus in *; lia)].
  cbn [drv triggerIO echoIO trace].
  erewrite (attempt_skips per_ms (per_ms - 1) 1 _ (t + 60 + 60 + 60));
    [| lia | lia | reflexivity | reflexivity | (cbn; unfold u32_modulus in *; lia) | (cbn; unfold u32_modulus in *; lia) | (cbn; unfold u32_modulus in *; lia)].
  cbn [drv triggerIO echoIO trace].
  erewrite (attempt_fires per_ms (per_ms - 1) 0 _ (t + 60 + 60 + 60 + 60));
    [| lia | lia | reflexivity | reflexivity | (cbn; unfold u32_modulus in *; lia) | (cbn; unfold u32_modulus in *; lia) | (unfold u32_modulus in *; lia)].
  cbn [drv triggerIO echoIO trace attempts].
  eexists _, _. unfold ret. f_equal. f_equal.
  replace (t + 60 + 60 + 60 + 60) with (t + 240) by lia.
  rewrite <- !app_assoc.
  unfold set_lastMeasurementStartedAt. cbn. reflexivity.
Qed.

End AbsentSensor.

(** X17. An absent sensor and a fast clock.  With both pins free, the echo
    line always low and a clock that is read at least three times in every
    millisecond, [hcsr04Detect] returns [false] after three trigger pulses,
    not five: each attempt runs out at the first clock reading 60 ms after
    its start, the next attempt begins in that same millisecond, and
    [hcsr04_start_reading], which wants more than 60 ms since the last
    pulse, sends none in the second and in the fourth attempt.  The pulses
    are those of the attempts that begin at [t], [t + 120] and [t + 240]. *)
Theorem hcsr04Detect_absent_sensor_three_pulses
    (b : Detect.build) (IOGetOwner : Detect.IO_t -> Detect.resourceOwner_e)
    (dev : Detect.rangefinderDev_t) (pins : Detect.rangefinderHardwarePins_t)
    (m : Detect.machine) (per_ms n : nat) (t : Z) :
  let trig := Detect.IOGetByTag (Detect.triggerTag pins) in
  let echo := Detect.IOGetByTag (Detect.echoTag pins) in
  let pulse := map (Detect.OnPin trig) (trigger_pulse (Detect.SONAR_TRIG_INVERTED b)) in
  IOGetOwner trig = Detect.OWNER_FREE ->
  IOGetOwner echo = Detect.OWNER_FREE ->
  (3 <= per_ms)%nat ->
  Detect.millis_tape m = Detect.slow_clock per_ms t (301 + n) ->
  Forall (fun level => level = false) (Detect.echo_tape m) ->
  (1 + 300 * per_ms <= length (Detect.echo_tape m))%nat ->
  0 <= lastMeasurementStartedAt (Detect.drv m) ->
  lastMeasurementStartedAt (Detect.drv m) + 60 < t ->
  t + 300 < u32_modulus ->
  exists m',
    Detect.hcsr04Detect b IOGetOwner dev pins m = Some ((false, dev), m') /\
    Detect.trace m'
    = Detect.trace m ++ Detect.rcc_commands b ++ Detect.claim_pins trig echo
      ++ (pulse ++ pulse ++ pulse) ++ Detect.release_pins trig echo /\
    Detect.pulses (pulse ++ pulse ++ pulse) = 3%nat /\
    lastMeasurementStartedAt (Detect.drv m') = t + 240.
Proof.
  cbv zeta. intros Ht He Hper Hclock Hlow Hlen Hpos Hlate Hfit.
  apply is_free_true in Ht. apply is_free_true in He.
  rewrite hcsr04Detect_free by assumption.
  destruct (Detect.echo_tape m) as [| level readings] eqn:Htape; [cbn in Hlen; lia |].
  inversion Hlow as [| x l Hx Hl]; subst.
  unfold Detect.bind at 1. unfold Detect.IORead_echoIO.
  cbn [Detect.echo_tape Detect.drv Detect.triggerIO Detect.echoIO
       Detect.millis_tape Detect.trace].
  match goal with
  | |- exists m', Detect.bind (Detect.attempts b 5) _ ?m1 = _ /\ _ =>
      destruct (attempts_absent_sensor b per_ms n t m1) as (clock & erest & Hatt)
  end; try assumption; try (cbn in *; lia).
  unfold Detect.bind at 1. rewrite Hatt.
  unfold Detect.bind, Detect.call_platform, Detect.ret.
  cbn [Detect.echo_tape Detect.drv Detect.triggerIO Detect.echoIO
       Detect.millis_tape Detect.trace].
  eexists. split; [reflexivity |].
  cbn [Detect.trace Detect.drv]. split; [| split].
  - rewrite <- !app_assoc. reflexivity.
  - rewrite !pulses_app, !pulses_trigger_pulse. reflexivity.
  - reflexivity.
Qed.

(** *** Runs on the board *)


(** The sensor answers: the echo line reads low, low, high.  One pulse is
    sent at 1000 ms, the device is filled in and the interrupt enabled. *)
Lemma hcsr04Detect_answering_sensor :
  Detect.hcsr04Detect Detect.f4_build Detect.all_free Detect.blank_dev
    Detect.sonar_pins (Detect.at_boot [1000; 1000; 1001; 1002] [false; false; true])
  = Some ((true, Detect.detected_dev),
          Detect.mkMachine (set_lastMeasurementStartedAt 1000 driver_at_boot)
            (Detect.IOGetByTag 1) (Detect.IOGetByTag 2) [] []
            ([] ++ Detect.rcc_commands Detect.f4_build
                ++ Detect.claim_pins (Detect.IOGetByTag 1) (Detect.IOGetByTag 2)
                ++ map (Detect.OnPin (Detect.IOGetByTag 1)) (trigger_pulse false)
                ++ Detect.enable_exti Detect.f4_build (Detect.IOGetByTag 2))).
Proof. reflexivity. Qed.


Lemma hcsr04Detect_platform_calls_witness :
  exists m' mid,
    Detect.hcsr04Detect Detect.f4_build Detect.all_free Detect.blank_dev
      Detect.sonar_pins (Detect.at_boot [1000; 1000; 1001; 1002] [false; false; true])
    = Some ((true, Detect.detected_dev), m') /\
    Detect.trace m'
    = [] ++ Detect.rcc_commands Detect.f4_build
         ++ Detect.claim_pins (Detect.IOGetByTag 1) (Detect.IOGetByTag 2)
         ++ mid ++ Detect.enable_exti Detect.f4_build (Detect.IOGetByTag 2) /\
    (Detect.pulses mid <= 5)%nat.
Proof.
  destruct (hcsr04Detect_platform_calls Detect.f4_build Detect.all_free
              Detect.blank_dev Detect.sonar_pins _ true Detect.detected_dev _
              eq_refl eq_refl hcsr04Detect_answering_sensor)
    as (mid & Htrace & _ & Hp & _).
  eexists _, mid. split; [exact hcsr04Detect_answering_sensor |].
  split; [exact Htrace | exact Hp].
Defined.

Lemma hcsr04Detect_echo_high_at_start_witness :
  Detect.hcsr04Detect Detect.f4_build Detect.all_free Detect.blank_dev
    Detect.sonar_pins (Detect.at_boot [1000; 1001] [true; false])
  = Some ((false, Detect.blank_dev),
          Detect.mkMachine driver_at_boot (Detect.IOGetByTag 1) (Detect.IOGetByTag 2)
            [1000; 1001] [false]
            ([] ++ Detect.rcc_commands Detect.f4_build
                ++ Detect.claim_pins (Detect.IOGetByTag 1) (Detect.IOGetByTag 2)
                ++ Detect.release_pins (Detect.IOGetByTag 1) (Detect.IOGetByTag 2))).
Proof.
  exact (hcsr04Detect_echo_high_at_start Detect.f4_build Detect.all_free
           Detect.blank_dev Detect.sonar_pins
           (Detect.at_boot [1000; 1001] [true; false]) [false]
           eq_refl eq_refl eq_refl).
Defined.

Lemma hcsr04Detect_keeps_measurement_witness :
  exists m',
    Detect.hcsr04Detect Detect.f4_build Detect.all_free Detect.blank_dev
      Detect.sonar_pins (Detect.at_boot [1000; 1000; 1001; 1002] [false; false; true])
    = Some ((true, Detect.detected_dev), m') /\
    Detect.triggerIO m' = Detect.IOGetByTag 1 /\
    Detect.echoIO m' = Detect.IOGetByTag 2 /\
    lastCalculatedDistance (Detect.drv m') = RANGEFINDER_OUT_OF_RANGE.
Proof.
  eexists. split; [exact hcsr04Detect_answering_sensor |].
  destruct (hcsr04Detect_keeps_measurement Detect.f4_build Detect.all_free
              Detect.blank_dev Detect.sonar_pins _ true Detect.detected_dev _
              hcsr04Detect_answering_sensor)
    as (Ht & He & _ & _ & _ & Hc).
  split; [exact Ht |]. split; [exact He | exact Hc].
Defined.

(** No sensor: a clock read once per millisecond and an echo line that
    stays low.  The function returns [false]. *)
Lemma hcsr04Detect_returns_witness :
  Detect.keeps_time 60 (Detect.ticking_clock 1000 310) = true /\
  (5 * (60 + 2) <= length (Detect.ticking_clock 1000 310))%nat /\
  (1 + 5 * 60 <= length (repeat false 301))%nat /\
  exists dev' m',
    Detect.hcsr04Detect Detect.f4_build Detect.all_free Detect.blank_dev
      Detect.sonar_pins
      (Detect.at_boot (Detect.ticking_clock 1000 310) (repeat false 301))
    = Some ((false, dev'), m').
Proof.
  assert (H1 : Detect.keeps_time 60 (Detect.ticking_clock 1000 310) = true)
    by (vm_compute; reflexivity).
  assert (H2 : (5 * (60 + 2) <= length (Detect.ticking_clock 1000 310))%nat)
    by (vm_compute; lia).
  assert (H3 : (1 + 5 * 60 <= length (repeat false 301))%nat)
    by (rewrite repeat_length; lia).
  split; [exact H1 |]. split; [exact H2 |]. split; [exact H3 |].
  destruct (hcsr04Detect_returns Detect.f4_build Detect.all_free Detect.blank_dev
              Detect.sonar_pins
              (Detect.at_boot (Detect.ticking_clock 1000 310) (repeat false 301))
              60%nat H1 H2 H3)
    as (r & dev' & m' & Hrun & Hlow).
  exists dev', m'. rewrite Hrun, Hlow; [reflexivity |].
  apply Forall_forall. intros level Hin. apply repeat_spec in Hin. exact Hin.
Defined.

(** A clock read four times per millisecond from 1000 ms on, for 301 ms, and
    an echo line that stays low. *)
Lemma hcsr04Detect_absent_sensor_three_pulses_witness :
  let m := Detect.at_boot (Detect.slow_clock 4 1000 301) (repeat false 1201) in
  (3 <= 4)%nat /\
  Detect.millis_tape m = Detect.slow_clock 4 1000 (301 + 0) /\
  Forall (fun level => level = false) (Detect.echo_tape m) /\
  (1 + 300 * 4 <= length (Detect.echo_tape m))%nat /\
  lastMeasurementStartedAt (Detect.drv m) + 60 < 1000 /\
  exists m',
    Detect.hcsr04Detect Detect.f4_build Detect.all_free Detect.blank_dev
      Detect.sonar_pins m = Some ((false, Detect.blank_dev), m') /\
    lastMeasurementStartedAt (Detect.drv m') = 1000 + 240.
Proof.
  cbv zeta.
  assert (H1 : (3 <= 4)%nat) by lia.
  assert (H2 : Detect.millis_tape
                 (Detect.at_boot (Detect.slow_clock 4 1000 301) (repeat false 1201))
               = Detect.slow_clock 4 1000 (301 + 0)) by reflexivity.
  assert (H3 : Forall (fun level => level = false)
                 (Detect.echo_tape
                    (Detect.at_boot (Detect.slow_clock 4 1000 301) (repeat false 1201)))).
  { apply Forall_forall. intros level Hin. apply repeat_spec in Hin. exact Hin. }
  assert (H4 : (1 + 300 * 4
                <= length (Detect.echo_tape
                             (Detect.at_boot (Detect.slow_clock 4 1000 301)
                                (repeat false 1201))))%nat).
  { cbn [Detect.echo_tape Detect.at_boot]. rewrite repeat_length. lia. }
  assert (H5 : 0 <= lastMeasurementStartedAt
                      (Detect.drv (Detect.at_boot (Detect.slow_clock 4 1000 301)
                                     (repeat false 1201))))
    by (cbn; lia).
  assert (H6 : lastMeasurementStartedAt
                 (Detect.drv (Detect.at_boot (Detect.slow_clock 4 1000 301)
                                (repeat false 1201))) + 60 < 1000)
    by (cbn; lia).
  assert (H7 : 1000 + 300 < u32_modulus) by (unfold u32_modulus; lia).
  split; [exact H1 |]. split; [exact H2 |]. split; [exact H3 |].
  split; [exact H4 |]. split; [exact H6 |].
  destruct (hcsr04Detect_absent_sensor_three_pulses Detect.f4_build Detect.all_free
              Detect.blank_dev Detect.sonar_pins
              (Detect.at_boot (Detect.slow_clock 4 1000 301) (repeat false 1201))
              4%nat 0%nat 1000 eq_refl eq_refl H1 H2 H3 H4 H5 H6 H7)
    as (m' & Hrun & _ & _ & Hlast).
  exists m'. split; [exact Hrun | exact Hlast].
Defined.

(** * The millisecond counter at its wrap-around *)

(** X18. The time-out of the reader is measured on the wrapping counter:
    with no fresh measurement, a read [d] ms after the trigger, for any
    [d] below [2^32] and also when the counter has wrapped in between,
    returns the cached distance when [d <= 60] and
    [RANGEFINDER_HARDWARE_FAILURE] when [d > 60]. *)
Theorem get_distance_timeout_across_wrap (t0 d : Z) (s : driver) :
  0 <= d < u32_modulus ->
  lastMeasurementStartedAt s = t0 ->
  lastMeasurementReceivedAt s <= t0 ->
  hcsr04_get_distance (u32 (t0 + d)) s
  = if d >? HCSR04_MinimumFiringIntervalMs
    then (RANGEFINDER_HARDWARE_FAILURE,
          set_lastCalculatedDistance RANGEFINDER_HARDWARE_FAILURE s)
    else (lastCalculatedDistance s, s).
Proof.
  intros Hd Hstart Hstale.
  assert (Helapsed : u32 (u32 (t0 + d) - lastMeasurementStartedAt s) = d)
    by (rewrite Hstart; apply u32_elapsed_after; exact Hd).
  assert (Hnot : response_after_request s = false)
    by (apply response_after_request_false; lia).
  destruct (Z.gtb_spec d HCSR04_MinimumFiringIntervalMs).
  - apply get_distance_scenario3; [exact Hnot | lia].
  - apply get_distance_scenario2; [exact Hnot | lia].
Qed.

(** Trigger 10 ms below the top of the counter, reads 40 and 100 ms later,
    both after the wrap. *)
Lemma get_distance_timeout_across_wrap_witness :
  let s := mkDriver 290 6 4294967286 5000 4 in
  0 <= 40 < u32_modulus /\
  lastMeasurementReceivedAt s <= 4294967286 /\
  u32 (4294967286 + 40) = 30 /\
  hcsr04_get_distance 30 s = (4, s) /\
  fst (hcsr04_get_distance (u32 (4294967286 + 100)) s) = RANGEFINDER_HARDWARE_FAILURE.
Proof.
  cbv zeta.
  assert (H1 : 0 <= 40 < u32_modulus) by (unfold u32_modulus; lia).
  assert (H1' : 0 <= 100 < u32_modulus) by (unfold u32_modulus; lia).
  assert (H2 : lastMeasurementReceivedAt (mkDriver 290 6 4294967286 5000 4)
               <= 4294967286) by (simpl; lia).
  split; [exact H1 |]. split; [exact H2 |]. split; [reflexivity |].
  split.
  - exact (get_distance_timeout_across_wrap 4294967286 40
             (mkDriver 290 6 4294967286 5000 4) H1 eq_refl H2).
  - rewrite (get_distance_timeout_across_wrap 4294967286 100
               (mkDriver 290 6 4294967286 5000 4) H1' eq_refl H2).
    reflexivity.
Defined.

Lemma firings_cons (inverted : bool) (c : call) (tr : list call) (s : driver) :
  firings inverted (c :: tr) s
  = match c with
    | StartReading now =>
        match snd (hcsr04_start_reading inverted now s) with
        | [] => []
        | _ :: _ => [now]
        end
    | _ => []
    end ++ firings inverted tr (fst (step inverted c s)).
Proof. reflexivity. Qed.

Lemma run_cons (inverted : bool) (c : call) (tr : list call) (s : driver) :
  run inverted (c :: tr) s
  = (fst (run inverted tr (fst (step inverted c s))),
     snd (step inverted c s) ++ snd (run inverted tr (fst (step inverted c s)))).
Proof.
  cbn [run]. destruct (step inverted c s) as [s1 r1]. cbn [fst snd].
  destruct (run inverted tr s1) as [s2 r2]. reflexivity.
Qed.

(** X19. The trigger across the wrap.  Let the last trigger have fired at
    [L], with [L + 60] below [2^32] and nothing stamped above [L] in
    store, and let the millisecond counter wrap.  As long as the counter
    reads below [L], however long that is, no call of
    [hcsr04_start_reading] drives the pin, no echo edge makes a measurement
    fresh, and every read returns [RANGEFINDER_HARDWARE_FAILURE]. *)
Theorem trigger_locked_out_after_wrap (inverted : bool) (L : Z) (tr : list call) :
  forall s,
    lastMeasurementStartedAt s = L ->
    L + HCSR04_MinimumFiringIntervalMs < u32_modulus ->
    lastMeasurementReceivedAt s <= L ->
    Forall (reads_below L) tr ->
    firings inverted tr s = [] /\
    Forall (fun d => d = RANGEFINDER_HARDWARE_FAILURE) (snd (run inverted tr s)) /\
    lastMeasurementStartedAt (fst (run inverted tr s)) = L.
Proof.
  unfold HCSR04_MinimumFiringIntervalMs.
  induction tr as [| c tr IH]; intros s Hstart Hfit Hstale Hbelow.
  - cbn. split; [reflexivity |]. split; [constructor | exact Hstart].
  - apply Forall_cons_iff in Hbelow. destruct Hbelow as [Hc Htr].
    rewrite firings_cons, run_cons. cbn [fst snd].
    destruct c as [| now | echo us ms | now]; cbn [reads_below] in Hc.
    + cbn [step fst snd app]. apply IH; assumption.
    + assert (Hskip : hcsr04_start_reading inverted now s = (s, [])).
      { apply start_reading_skips. unfold HCSR04_MinimumFiringIntervalMs.
        rewrite u32_add_no_wrap; lia. }
      cbn [step]. rewrite Hskip. cbn [fst snd app]. apply IH; assumption.
    + cbn [step fst snd app].
      destruct (extiHandler_frame echo us ms s) as [Hst _]. cbv zeta in Hst.
      apply IH; try assumption; [congruence |].
      unfold hcsr04_extiHandler. destruct echo; cbn; [exact Hstale |].
      destruct (_ >? _); cbn; lia.
    + rewrite step_get_distance. cbn [fst snd app].
      assert (Hnot : response_after_request s = false)
        by (apply response_after_request_false; lia).
      assert (Hout : u32 (now - lastMeasurementStartedAt s)
                     > HCSR04_MinimumFiringIntervalMs).
      { rewrite u32_sub_wrap; unfold is_u32, u32_modulus,
          HCSR04_MinimumFiringIntervalMs in *; lia. }
      rewrite (get_distance_scenario3 now s Hnot Hout). cbn [fst snd].
      destruct (IH (set_lastCalculatedDistance RANGEFINDER_HARDWARE_FAILURE s))
        as (Hf & Hr & Hl); try assumption.
      split; [exact Hf |]. split; [| exact Hl].
      constructor; [reflexivity | exact Hr].
Qed.

(** Last trigger at 4 294 000 000 ms; after the wrap, calls at 100, 200 and
    1 000 000 ms. *)
Lemma trigger_locked_out_after_wrap_witness :
  let s := mkDriver 290 4293999000 4294000000 5000 4 in
  let tr := [StartReading 100; GetDistance 200; EchoEdge true 300000 300;
             EchoEdge false 300290 300; StartReading 1000000; GetDistance 1000001] in
  4294000000 + HCSR04_MinimumFiringIntervalMs < u32_modulus /\
  lastMeasurementReceivedAt s <= 4294000000 /\
  Forall (reads_below 4294000000) tr /\
  firings false tr s = [] /\
  snd (run false tr s) = [RANGEFINDER_HARDWARE_FAILURE; RANGEFINDER_HARDWARE_FAILURE].
Proof.
  cbv zeta.
  assert (H1 : 4294000000 + HCSR04_MinimumFiringIntervalMs < u32_modulus)
    by (unfold HCSR04_MinimumFiringIntervalMs, u32_modulus; lia).
  assert (H2 : lastMeasurementReceivedAt (mkDriver 290 4293999000 4294000000 5000 4)
               <= 4294000000) by (simpl; lia).
  assert (H3 : Forall (reads_below 4294000000)
                 [StartReading 100; GetDistance 200; EchoEdge true 300000 300;
                  EchoEdge false 300290 300; StartReading 1000000;
                  GetDistance 1000001])
    by (repeat constructor; cbn; lia).
  split; [exact H1 |]. split; [exact H2 |]. split; [exact H3 |].
  split; [| reflexivity].
  exact (proj1 (trigger_locked_out_after_wrap false 4294000000 _
                  (mkDriver 290 4293999000 4294000000 5000 4) eq_refl H1 H2 H3)).
Defined.
